(** * Outbound-request trust boundary: constant-time comparator, URL guard,
      cookie store and request client.

    Shallow embedding of [src/utils/crypto.ts] and
    [src/utils/http/http-client.ts], with the properties stated in the
    design document proved (or refuted) on the embedding. *)

From Stdlib Require Import ZArith List Bool Ascii String Lia Arith.
From Stdlib Require Import DecimalString HexadecimalString.
Import ListNotations.

Local Open Scope Z_scope.

(** ** JavaScript primitives used by [crypto.ts] *)

Module JS.

(** A JavaScript string is a sequence of UTF-16 code units. *)
Definition jsstring := list Z.

Definition code_unit (c : Z) : Prop := 0 <= c < 65536.

Definition wf_jsstring (s : jsstring) : Prop := Forall code_unit s.

(** Code units of an 8-bit literal, to write test strings. *)
Fixpoint lit (s : string) : jsstring :=
  match s with
  | EmptyString => []
  | String c r => Z.of_nat (nat_of_ascii c) :: lit r
  end.

(** [s.length] *)
Definition length (s : jsstring) : Z := Z.of_nat (List.length s).

(** [s.charCodeAt(i)] for an index in range (the source guards every call
    with [i < s.length]). *)
Definition charCodeAt (s : jsstring) (i : Z) : Z := nth (Z.to_nat i) s 0.

(** ToInt32 of the language standard: wrap into [-2^31, 2^31). *)
Definition toInt32 (x : Z) : Z := (x + 2 ^ 31) mod 2 ^ 32 - 2 ^ 31.

(** [x ^ y] and [x | y]: both operands go through ToInt32. *)
Definition bit_xor (x y : Z) : Z := Z.lxor (toInt32 x) (toInt32 y).
Definition bit_or (x y : Z) : Z := Z.lor (toInt32 x) (toInt32 y).

Definition int32 (x : Z) : Prop := - 2 ^ 31 <= x < 2 ^ 31.

End JS.

(** ** [src/utils/crypto.ts] *)

Module Crypto.

Import JS.

(** The mutable variables of [timingSafeEqual]'s loop, with a ghost log of
    the two ternary conditions evaluated by each iteration. *)
Record loop_state := mkLoop {
  i : Z;
  result : Z;
  branches : list (bool * bool)
}.

(** One execution of the loop body followed by [i++]. *)
Definition loop_body (a b : jsstring) (st : loop_state) : loop_state :=
  let inA := i st <? length a in
  let inB := i st <? length b in
  let charA := if inA then charCodeAt a (i st) else 0 in
  let charB := if inB then charCodeAt b (i st) else 0 in
  {| i := i st + 1;
     result := bit_or (result st) (bit_xor charA charB);
     branches := branches st ++ [(inA, inB)] |}.

(** [for (...; i < maxLen; i++) body], with fuel for the recursion. *)
Fixpoint for_loop (fuel : nat) (maxLen : Z) (a b : jsstring)
    (st : loop_state) : option loop_state :=
  match fuel with
  | O => None
  | S fuel' =>
      if i st <? maxLen
      then for_loop fuel' maxLen a b (loop_body a b st)
      else Some st
  end.

(** The state in which the loop of [timingSafeEqual a b] is left. *)
Definition timingSafeEqual_loop (fuel : nat) (a b : jsstring)
    : option loop_state :=
  let maxLen := Z.max (length a) (length b) in
  for_loop fuel maxLen a b
    {| i := 0; result := bit_xor (length a) (length b); branches := [] |}.

Definition timingSafeEqual_fuel (fuel : nat) (a b : jsstring) : option bool :=
  match timingSafeEqual_loop fuel a b with
  | Some st => Some (result st =? 0)
  | None => None
  end.

(** Fuel that always suffices: one test per iteration and the final one. *)
Definition enough (a b : jsstring) : nat :=
  S (Nat.max (List.length a) (List.length b)).

Definition timingSafeEqual (a b : jsstring) : option bool :=
  timingSafeEqual_fuel (enough a b) a b.

(** Number of loop iterations executed. *)
Definition iterations (a b : jsstring) : option nat :=
  match timingSafeEqual_loop (enough a b) a b with
  | Some st => Some (List.length (branches st))
  | None => None
  end.

(** The control decisions taken inside the loop. *)
Definition branch_trace (a b : jsstring) : option (list (bool * bool)) :=
  match timingSafeEqual_loop (enough a b) a b with
  | Some st => Some (branches st)
  | None => None
  end.

End Crypto.

(** ** Text helpers

    URL strings, host names and header fields are byte strings; the
    characters the code inspects are all ASCII. *)

Module Text.

Local Open Scope string_scope.
Local Open Scope Z_scope.

Definition code (c : ascii) : nat := nat_of_ascii c.

Definition between (lo hi c : ascii) : bool :=
  ((code lo <=? code c) && (code c <=? code hi))%nat.

Definition is_digit (c : ascii) : bool := between "0" "9" c.
Definition is_upper (c : ascii) : bool := between "A" "Z" c.
Definition is_lower (c : ascii) : bool := between "a" "z" c.
Definition is_alpha (c : ascii) : bool := is_upper c || is_lower c.
Definition is_alnum (c : ascii) : bool := is_alpha c || is_digit c.
Definition is_hex_digit (c : ascii) : bool :=
  is_digit c || between "a" "f" c || between "A" "F" c.

Definition lower (c : ascii) : ascii :=
  if is_upper c then ascii_of_nat (code c + 32)%nat else c.

Definition upper (c : ascii) : ascii :=
  if is_lower c then ascii_of_nat (code c - 32)%nat else c.

Definition one_of (set : string) (c : ascii) : bool :=
  existsb (Ascii.eqb c) (list_ascii_of_string set).

Fixpoint smap (f : ascii -> ascii) (s : string) : string :=
  match s with
  | EmptyString => EmptyString
  | String c r => String (f c) (smap f r)
  end.

(** [s.toLowerCase()] on ASCII text. *)
Definition toLowerCase (s : string) : string := smap lower s.

Fixpoint sforall (p : ascii -> bool) (s : string) : bool :=
  match s with
  | EmptyString => true
  | String c r => p c && sforall p r
  end.

Fixpoint sexists (p : ascii -> bool) (s : string) : bool :=
  match s with
  | EmptyString => false
  | String c r => p c || sexists p r
  end.

Fixpoint sfilter (p : ascii -> bool) (s : string) : string :=
  match s with
  | EmptyString => EmptyString
  | String c r => if p c then String c (sfilter p r) else sfilter p r
  end.

Definition is_empty (s : string) : bool :=
  match s with EmptyString => true | _ => false end.

Definition srev (s : string) : string :=
  string_of_list_ascii (rev (list_ascii_of_string s)).

(** Drop the longest prefix whose characters satisfy [p]. *)
Fixpoint drop_while (p : ascii -> bool) (s : string) : string :=
  match s with
  | EmptyString => EmptyString
  | String c r => if p c then drop_while p r else s
  end.

(** The longest prefix whose characters do not satisfy [stop], and what
    follows it (starting at the stopping character, if any). *)
Fixpoint span_until (stop : ascii -> bool) (s : string) : string * string :=
  match s with
  | EmptyString => (EmptyString, EmptyString)
  | String c r =>
      if stop c then (EmptyString, s)
      else let '(a, b) := span_until stop r in (String c a, b)
  end.

(** Strict split on a separator: two adjacent separators enclose an empty
    part. *)
Fixpoint split (sep : ascii) (s : string) : list string :=
  match s with
  | EmptyString => [EmptyString]
  | String c r =>
      if Ascii.eqb c sep then EmptyString :: split sep r
      else match split sep r with
           | [] => [String c EmptyString]
           | p :: ps => String c p :: ps
           end
  end.

(** Split at the first occurrence of [sep], if there is one. *)
Fixpoint cut (sep : ascii) (s : string) : option (string * string) :=
  match s with
  | EmptyString => None
  | String c r =>
      if Ascii.eqb c sep then Some (EmptyString, r)
      else match cut sep r with
           | Some (a, b) => Some (String c a, b)
           | None => None
           end
  end.

(** Split at the last occurrence of [sep], if there is one. *)
Definition cut_last (sep : ascii) (s : string) : option (string * string) :=
  match cut sep (srev s) with
  | Some (b, a) => Some (srev a, srev b)
  | None => None
  end.

Definition join (sep : string) (l : list string) : string :=
  String.concat sep l.

Definition decimal (n : Z) : string :=
  DecimalString.NilZero.string_of_uint (N.to_uint (Z.to_N n)).

Definition hexadecimal (n : Z) : string :=
  HexadecimalString.NilZero.string_of_uint (N.to_hex_uint (Z.to_N n)).

(** Value of a hexadecimal digit. *)
Definition digit_value (c : ascii) : option Z :=
  if is_digit c then Some (Z.of_nat (code c - code "0")%nat)
  else if between "a" "f" c then Some (Z.of_nat (code c - code "a" + 10)%nat)
  else if between "A" "F" c then Some (Z.of_nat (code c - code "A" + 10)%nat)
  else None.

End Text.

(** ** The platform's [URL] class

    [validateUrl] reads [protocol] and [hostname] of [new URL(s)].  The
    class belongs to the runtime, not to this repository; the model below
    follows the URL parsing algorithm of the URL Standard for an input
    without a base URL, on byte strings.  It covers ASCII hosts: the
    internationalised-domain step is the identity up to letter case on
    those.  Path, query and fragment never make parsing fail and are not
    kept. *)

Module URL.

Import Text.
Local Open Scope string_scope.
Local Open Scope Z_scope.

Record URL := mkURL { protocol : string; hostname : string }.

Inductive Host :=
| Domain (name : string)
| IPv4 (address : Z)
| IPv6 (pieces : list Z)
| Opaque (text : string).

Definition special_schemes : list string :=
  ["ftp"; "file"; "http"; "https"; "ws"; "wss"].

Definition is_special (scheme : string) : bool :=
  existsb (String.eqb scheme) special_schemes.

Definition code_in (codes : list nat) (c : ascii) : bool :=
  existsb (Nat.eqb (code c)) codes.

(** NUL, TAB, LF, CR, space, # / : < > ? @ [ \ ] ^ | *)
Definition forbidden_host_code_point (c : ascii) : bool :=
  code_in [0; 9; 10; 13; 32; 35; 47; 58; 60; 62; 63; 64; 91; 92; 93; 94;
           124]%nat c.

(** A forbidden host code point, a C0 control, % or DEL. *)
Definition forbidden_domain_code_point (c : ascii) : bool :=
  forbidden_host_code_point c || (code c <=? 31)%nat || code_in [37; 127]%nat c.

Definition is_slash (c : ascii) : bool := code_in [47; 92]%nat c.

(** *** IPv4 *)

Fixpoint parse_radix (R : Z) (s : string) (acc : Z) : option Z :=
  match s with
  | EmptyString => Some acc
  | String c r =>
      match digit_value c with
      | Some d => if d <? R then parse_radix R r (acc * R + d) else None
      | None => None
      end
  end.

(** The IPv4 number parser: decimal, [0x] hexadecimal or [0] octal. *)
Definition ipv4_number (s : string) : option Z :=
  match s with
  | EmptyString => None
  | String "0" ((String x r) as body) =>
      if one_of "xX" x
      then (if is_empty r then Some 0 else parse_radix 16 r 0)
      else parse_radix 8 body 0
  | _ => parse_radix 10 s 0
  end.

Definition is_some {A : Type} (o : option A) : bool :=
  match o with Some _ => true | None => false end.

Definition numeric_label (last : string) : bool :=
  (negb (is_empty last) && sforall is_digit last) || is_some (ipv4_number last).

(** The ends-in-a-number checker. *)
Definition ends_in_number (s : string) : bool :=
  match rev (split "." s) with
  | [] => false
  | [EmptyString] => false
  | EmptyString :: last :: _ => numeric_label last
  | last :: _ => numeric_label last
  end.

Fixpoint traverse {A B : Type} (f : A -> option B) (l : list A)
    : option (list B) :=
  match l with
  | [] => Some []
  | x :: r =>
      match f x, traverse f r with
      | Some y, Some ys => Some (y :: ys)
      | _, _ => None
      end
  end.

(** [front] holds the numbers but the last, most significant first. *)
Fixpoint ipv4_sum (front : list Z) (counter : nat) : Z :=
  match front with
  | [] => 0
  | n :: r => n * 256 ^ (3 - Z.of_nat counter) + ipv4_sum r (S counter)
  end.

Definition ipv4_parse (s : string) : option Z :=
  let parts := split "." s in
  let parts :=
    match rev parts with
    | EmptyString :: ((_ :: _) as before) => rev before
    | _ => parts
    end in
  if (4 <? List.length parts)%nat then None
  else
    match traverse ipv4_number parts with
    | None => None
    | Some numbers =>
        match rev numbers with
        | [] => None
        | last :: front =>
            if existsb (fun n => 255 <? n) front then None
            else if 256 ^ (5 - Z.of_nat (List.length numbers)) <=? last then None
            else Some (last + ipv4_sum (rev front) 0)
        end
    end.

Definition ipv4_serialize (n : Z) : string :=
  join "." [decimal (n / 16777216 mod 256); decimal (n / 65536 mod 256);
            decimal (n / 256 mod 256); decimal (n mod 256)].

(** *** IPv6 *)

Record v6state := mkV6 {
  address : list Z;
  pieceIndex : nat;
  compress : option nat
}.

Fixpoint update (n : nat) (f : Z -> Z) (l : list Z) : list Z :=
  match l, n with
  | [], _ => []
  | x :: r, O => f x :: r
  | x :: r, S n' => x :: update n' f r
  end.

Definition set_piece (st : v6state) (f : Z -> Z) : v6state :=
  {| address := update (pieceIndex st) f (address st);
     pieceIndex := pieceIndex st;
     compress := compress st |}.

Definition next_piece (st : v6state) : v6state :=
  {| address := address st;
     pieceIndex := S (pieceIndex st);
     compress := compress st |}.

(** Up to [max] hexadecimal digits: their value, how many, what follows. *)
Fixpoint read_hex (max : nat) (s : string) (value : Z) (len : nat)
    : Z * nat * string :=
  match max, s with
  | S m, String c r =>
      if is_hex_digit c
      then match digit_value c with
           | Some d => read_hex m r (value * 16 + d) (S len)
           | None => (value, len, s)
           end
      else (value, len, s)
  | _, _ => (value, len, s)
  end.

(** The digits of one dotted-decimal number inside an IPv6 address. *)
Fixpoint read_octet (s : string) (ipv4Piece : option Z)
    : option (option Z * string) :=
  match s with
  | EmptyString => Some (ipv4Piece, s)
  | String c r =>
      if is_digit c then
        let number := Z.of_nat (code c - code "0")%nat in
        match ipv4Piece with
        | None => read_octet r (Some number)
        | Some 0 => None
        | Some p =>
            if 255 <? p * 10 + number then None
            else read_octet r (Some (p * 10 + number))
        end
      else Some (ipv4Piece, s)
  end.

(** The dotted-decimal tail of an IPv6 address. *)
Fixpoint ipv4_in_ipv6 (fuel : nat) (s : string) (numbersSeen : nat)
    (st : v6state) : option v6state :=
  match fuel with
  | O => None
  | S fuel' =>
      match s with
      | EmptyString => if (numbersSeen =? 4)%nat then Some st else None
      | String c r =>
          let after_dot :=
            if (0 <? numbersSeen)%nat
            then (if Ascii.eqb c "." && (numbersSeen <? 4)%nat
                  then Some r else None)
            else Some s in
          match after_dot with
          | Some ((String d _) as s1) =>
              if is_digit d then
                match read_octet s1 None with
                | Some (Some ipv4Piece, s2) =>
                    let st1 := set_piece st (fun x => x * 256 + ipv4Piece) in
                    let seen := S numbersSeen in
                    let st2 :=
                      if (seen =? 2)%nat || (seen =? 4)%nat
                      then next_piece st1 else st1 in
                    ipv4_in_ipv6 fuel' s2 seen st2
                | _ => None
                end
              else None
          | _ => None
          end
      end
  end.

(** The main loop of the IPv6 parser; [s] is the input from the pointer. *)
Fixpoint ipv6_loop (fuel : nat) (s : string) (st : v6state)
    : option v6state :=
  match fuel with
  | O => None
  | S fuel' =>
      match s with
      | EmptyString => Some st
      | String c r =>
          if (pieceIndex st =? 8)%nat then None
          else if Ascii.eqb c ":" then
            match compress st with
            | Some _ => None
            | None =>
                ipv6_loop fuel' r
                  {| address := address st;
                     pieceIndex := S (pieceIndex st);
                     compress := Some (S (pieceIndex st)) |}
            end
          else
            let '(value, len, s1) := read_hex 4 s 0 0 in
            match s1 with
            | EmptyString =>
                ipv6_loop fuel' s1 (next_piece (set_piece st (fun _ => value)))
            | String c1 r1 =>
                if Ascii.eqb c1 "." then
                  if (len =? 0)%nat then None
                  else if (6 <? pieceIndex st)%nat then None
                  else ipv4_in_ipv6 (S (String.length s)) s 0 st
                else if Ascii.eqb c1 ":" then
                  if is_empty r1 then None
                  else ipv6_loop fuel' r1
                         (next_piece (set_piece st (fun _ => value)))
                else None
            end
      end
  end.

Definition swap (i j : nat) (l : list Z) : list Z :=
  let x := nth i l 0 in
  let y := nth j l 0 in
  update i (fun _ => y) (update j (fun _ => x) l).

(** Move the pieces written after the compression to the end. *)
Fixpoint ipv6_swaps (swaps pieceIndex cmp : nat) (l : list Z) : list Z :=
  match swaps, pieceIndex with
  | S swaps', S pieceIndex' =>
      ipv6_swaps swaps' pieceIndex' cmp (swap pieceIndex (cmp + swaps - 1) l)
  | _, _ => l
  end.

Definition ipv6_parse (input : string) : option (list Z) :=
  let st0 := {| address := repeat 0 8; pieceIndex := 0; compress := None |} in
  let start :=
    match input with
    | String ":" (String ":" r) =>
        Some (r, {| address := repeat 0 8; pieceIndex := 1;
                    compress := Some 1%nat |})
    | String ":" _ => None
    | _ => Some (input, st0)
    end in
  match start with
  | None => None
  | Some (s, st) =>
      match ipv6_loop (S (String.length s)) s st with
      | None => None
      | Some st' =>
          match compress st' with
          | Some cmp =>
              Some (ipv6_swaps (pieceIndex st' - cmp) 7 cmp (address st'))
          | None =>
              if (pieceIndex st' =? 8)%nat then Some (address st') else None
          end
      end
  end.

Fixpoint zero_run (l : list Z) : nat :=
  match l with
  | 0 :: r => S (zero_run r)
  | _ => O
  end.

(** Index of the first longest run of two or more zero pieces. *)
Fixpoint compressed_index (l : list Z) (index : nat) (best : option (nat * nat))
    : option nat :=
  match l with
  | [] => option_map fst best
  | _ :: r =>
      let len := zero_run l in
      let longer :=
        match best with
        | Some (_, b) => (b <? len)%nat
        | None => true
        end in
      compressed_index r (S index)
        (if (1 <? len)%nat && longer then Some (index, len) else best)
  end.

Fixpoint ipv6_serialize_from (l : list Z) (index : nat) (cmp : option nat)
    (ignore0 : bool) : string :=
  match l with
  | [] => EmptyString
  | piece :: r =>
      if ignore0 && (piece =? 0) then ipv6_serialize_from r (S index) cmp true
      else if match cmp with Some k => (k =? index)%nat | None => false end
      then (if (index =? 0)%nat then "::" else ":")
           ++ ipv6_serialize_from r (S index) cmp true
      else hexadecimal piece ++ (if (index =? 7)%nat then EmptyString else ":")
           ++ ipv6_serialize_from r (S index) cmp false
  end.

Definition ipv6_serialize (l : list Z) : string :=
  ipv6_serialize_from l 0 (compressed_index l 0 None) false.

(** *** Hosts *)

Definition hex_pair (h l : ascii) : option ascii :=
  if is_hex_digit h && is_hex_digit l then
    match digit_value h, digit_value l with
    | Some a, Some b => Some (ascii_of_nat (Z.to_nat (a * 16 + b)))
    | _, _ => None
    end
  else None.

Fixpoint percent_decode (s : string) : string :=
  match s with
  | EmptyString => EmptyString
  | String c r =>
      match r with
      | String h (String l r') =>
          match (if Ascii.eqb c "%" then hex_pair h l else None) with
          | Some byte => String byte (percent_decode r')
          | None => String c (percent_decode r)
          end
      | _ => String c (percent_decode r)
      end
  end.

Definition hex_upper (n : nat) : ascii :=
  if (n <? 10)%nat then ascii_of_nat (code "0" + n)
  else ascii_of_nat (code "A" + (n - 10)).

(** Percent-encoding with the C0 control percent-encode set. *)
Fixpoint percent_encode_c0 (s : string) : string :=
  match s with
  | EmptyString => EmptyString
  | String c r =>
      if (code c <=? 31)%nat || (126 <? code c)%nat
      then String "%" (String (hex_upper (code c / 16))
             (String (hex_upper (code c mod 16)) (percent_encode_c0 r)))
      else String c (percent_encode_c0 r)
  end.

Definition opaque_host_parse (input : string) : option Host :=
  if sexists forbidden_host_code_point input then None
  else Some (Opaque (percent_encode_c0 input)).

(** Domain to ASCII, on an ASCII domain. *)
Definition domain_to_ASCII (domain : string) : option string :=
  let result := toLowerCase domain in
  if is_empty result then None else Some result.

Definition host_parse (input : string) (isOpaque : bool) : option Host :=
  match input with
  | String "[" r =>
      match srev r with
      | String "]" inner => option_map IPv6 (ipv6_parse (srev inner))
      | _ => None
      end
  | _ =>
      if isOpaque then opaque_host_parse input
      else
        match domain_to_ASCII (percent_decode input) with
        | None => None
        | Some asciiDomain =>
            if sexists forbidden_domain_code_point asciiDomain then None
            else if ends_in_number asciiDomain
            then option_map IPv4 (ipv4_parse asciiDomain)
            else Some (Domain asciiDomain)
        end
  end.

Definition host_serialize (h : Host) : string :=
  match h with
  | Domain name => name
  | IPv4 n => ipv4_serialize n
  | IPv6 l => "[" ++ ipv6_serialize l ++ "]"
  | Opaque text => text
  end.

(** *** The parser proper *)

Definition c0_or_space (c : ascii) : bool := (code c <=? 32)%nat.
Definition tab_or_newline (c : ascii) : bool := code_in [9; 10; 13]%nat c.

Definition strip (s : string) : string :=
  srev (drop_while c0_or_space (srev (drop_while c0_or_space s))).

Fixpoint scheme_tail (s : string) : option (string * string) :=
  match s with
  | EmptyString => None
  | String c r =>
      if Ascii.eqb c ":" then Some (EmptyString, r)
      else if is_alnum c || one_of "+-." c then
        match scheme_tail r with
        | Some (scheme, rest) => Some (String (lower c) scheme, rest)
        | None => None
        end
      else None
  end.

(** Scheme start state and scheme state: the lower-cased scheme and what
    follows its colon; nothing when there is no scheme (and no base). *)
Definition parse_scheme (s : string) : option (string * string) :=
  match s with
  | EmptyString => None
  | String c r =>
      if is_alpha c then
        match scheme_tail r with
        | Some (scheme, rest) => Some (String (lower c) scheme, rest)
        | None => None
        end
      else None
  end.

Definition authority_end (special : bool) (c : ascii) : bool :=
  one_of "/?#" c || (special && Ascii.eqb c "\").

(** Host state: the host text, and the port text when a colon outside
    brackets ends the host. *)
Fixpoint host_span (s : string) (insideBrackets : bool)
    : string * option string :=
  match s with
  | EmptyString => (EmptyString, None)
  | String c r =>
      if Ascii.eqb c ":" && negb insideBrackets then (EmptyString, Some r)
      else
        let inside :=
          if Ascii.eqb c "[" then true
          else if Ascii.eqb c "]" then false
          else insideBrackets in
        let '(h, p) := host_span r inside in
        (String c h, p)
  end.

(** Port state. *)
Definition port_ok (port : string) : bool :=
  sforall is_digit port &&
  match parse_radix 10 port 0 with
  | Some n => n <=? 65535
  | None => false
  end.

(** Authority state, host state and port state. *)
Definition parse_authority (scheme s : string) : option URL :=
  let special := is_special scheme in
  let authority := fst (span_until (authority_end special) s) in
  let hostport :=
    match cut_last "@" authority with
    | Some (_, after) => if is_empty after then None else Some after
    | None => Some authority
    end in
  match hostport with
  | None => None
  | Some hp =>
      let '(buffer, port) := host_span hp false in
      let missing :=
        match port with
        | Some _ => is_empty buffer
        | None => special && is_empty buffer
        end in
      if missing then None
      else
        match host_parse buffer (negb special) with
        | None => None
        | Some host =>
            if match port with Some p => port_ok p | None => true end
            then Some {| protocol := scheme ++ ":";
                         hostname := host_serialize host |}
            else None
        end
  end.

Definition windows_drive_letter (s : string) : bool :=
  match s with
  | String c (String d EmptyString) => is_alpha c && one_of ":|" d
  | _ => false
  end.

(** File state, file slash state and file host state. *)
Definition parse_file (s : string) : option URL :=
  let no_host := Some {| protocol := "file:"; hostname := EmptyString |} in
  match s with
  | String c1 (String c2 r) =>
      if is_slash c1 && is_slash c2 then
        let buffer := fst (span_until (fun c => is_slash c || one_of "?#" c) r) in
        if windows_drive_letter buffer || is_empty buffer then no_host
        else
          match host_parse buffer false with
          | None => None
          | Some host =>
              let name := host_serialize host in
              Some {| protocol := "file:";
                      hostname := if String.eqb name "localhost"
                                  then EmptyString else name |}
          end
      else no_host
  | _ => no_host
  end.

(** [new URL(input)]; [None] stands for the [TypeError] it throws. *)
Definition new (input : string) : option URL :=
  let s := sfilter (fun c => negb (tab_or_newline c)) (strip input) in
  match parse_scheme s with
  | None => None
  | Some (scheme, rest) =>
      if String.eqb scheme "file" then parse_file rest
      else if is_special scheme
      then parse_authority scheme (drop_while is_slash rest)
      else
        match rest with
        | String "/" (String "/" r) => parse_authority scheme r
        | _ => Some {| protocol := scheme ++ ":"; hostname := EmptyString |}
        end
  end.

End URL.

(** ** Regular expressions

    The patterns of [http-client.ts] are anchored at the start of the
    subject, made of literal characters, character classes, alternation and
    a counted repetition, some anchored at the end and some with the [i]
    flag. *)

Module RegExp.

Import Text.
Local Open Scope string_scope.

Inductive regex :=
| Chars (text : string)
| Class (ranges : list (ascii * ascii))
| Seq (r1 r2 : regex)
| Alt (r1 r2 : regex)
| Times (n : nat) (r : regex).

(** [/^body/], [/^body$/] when [to_end], with flag [i] when [ignoreCase]. *)
Record RegExp := mkRegExp {
  body : regex;
  to_end : bool;
  ignoreCase : bool
}.

Definition same_char (ignoreCase : bool) (a b : ascii) : bool :=
  if ignoreCase then Ascii.eqb (upper a) (upper b) else Ascii.eqb a b.

Definition in_class (ignoreCase : bool) (ranges : list (ascii * ascii))
    (c : ascii) : bool :=
  existsb (fun '(lo, hi) =>
             between lo hi c ||
             (ignoreCase && (between lo hi (lower c) || between lo hi (upper c))))
          ranges.

Fixpoint strip_prefix (ignoreCase : bool) (text s : string) : option string :=
  match text, s with
  | EmptyString, _ => Some s
  | String a text', String b s' =>
      if same_char ignoreCase a b then strip_prefix ignoreCase text' s' else None
  | String _ _, EmptyString => None
  end.

(** Every way [r] matches a prefix of [s], as what remains after it. *)
Fixpoint run (ignoreCase : bool) (r : regex) (s : string) : list string :=
  match r with
  | Chars text =>
      match strip_prefix ignoreCase text s with
      | Some rest => [rest]
      | None => []
      end
  | Class ranges =>
      match s with
      | String c rest => if in_class ignoreCase ranges c then [rest] else []
      | EmptyString => []
      end
  | Seq r1 r2 => flat_map (run ignoreCase r2) (run ignoreCase r1 s)
  | Alt r1 r2 => run ignoreCase r1 s ++ run ignoreCase r2 s
  | Times n r' => Nat.iter n (flat_map (run ignoreCase r')) [s]
  end.

(** [pattern.test(s)] *)
Definition test (pattern : RegExp) (s : string) : bool :=
  existsb (fun rest => negb (to_end pattern) || is_empty rest)
          (run (ignoreCase pattern) (body pattern) s).

End RegExp.

(** ** Results and errors

    [ok] / [err] of the neverthrow library, and the two error classes of
    [utils/error/errors.ts] that the client constructs with a message. *)

Inductive Result (T E : Type) :=
| ok (value : T)
| err (error : E).

Arguments ok {T E} value.
Arguments err {T E} error.

Definition isErr {T E : Type} (r : Result T E) : bool :=
  match r with err _ => true | ok _ => false end.

Inductive HttpError :=
| BadRequestError (message : string)
| InternalServerError (message : string).

(** ** [src/utils/http/http-client.ts]: the URL guard *)

Module Guard.

Import Text RegExp.
Local Open Scope string_scope.

Definition digit_range (lo hi : ascii) : regex := Class [(lo, hi)].

Definition prefix_pattern (r : regex) : RegExp :=
  {| body := r; to_end := false; ignoreCase := false |}.

Definition PRIVATE_IP_PATTERNS : list RegExp :=
  [ prefix_pattern (Chars "127.");
    prefix_pattern (Chars "10.");
    prefix_pattern
      (Seq (Chars "172.")
         (Seq (Alt (Seq (Chars "1") (digit_range "6" "9"))
                 (Alt (Seq (Chars "2") (digit_range "0" "9"))
                      (Seq (Chars "3") (digit_range "0" "1"))))
              (Chars ".")));
    prefix_pattern (Chars "192.168.");
    prefix_pattern (Chars "169.254.");
    prefix_pattern (Chars "0.") ].

Definition BLOCKED_HOSTNAMES : list string :=
  [ "localhost";
    "localhost.localdomain";
    "ip6-localhost";
    "ip6-loopback";
    "0.0.0.0" ].

Definition hex_class : regex := Class [("0", "9"); ("a", "f")]%char.

Definition BLOCKED_IPV6_PATTERNS : list RegExp :=
  [ {| body := Chars "::1"; to_end := true; ignoreCase := false |};
    {| body := Chars "[::1]"; to_end := true; ignoreCase := false |};
    {| body := Chars "::ffff:"; to_end := false; ignoreCase := true |};
    {| body := Seq (Chars "fc") (Seq (Times 2 hex_class) (Chars ":"));
       to_end := false; ignoreCase := true |};
    {| body := Seq (Chars "fd") (Seq (Times 2 hex_class) (Chars ":"));
       to_end := false; ignoreCase := true |};
    {| body := Chars "fe80:"; to_end := false; ignoreCase := true |} ].

(** [list.includes(s)] *)
Definition includes (l : list string) (s : string) : bool :=
  existsb (String.eqb s) l.

Definition validateUrl (urlString : string) : Result URL.URL HttpError :=
  match URL.new urlString with
  | None => err (BadRequestError "Invalid URL format")
  | Some url =>
      if negb (String.eqb (URL.protocol url) "http:")
         && negb (String.eqb (URL.protocol url) "https:")
      then err (BadRequestError ("Blocked protocol: " ++ URL.protocol url))
      else
        let hostname := toLowerCase (URL.hostname url) in
        if includes BLOCKED_HOSTNAMES hostname
        then err (BadRequestError "Blocked hostname: localhost")
        else if existsb (fun pattern => test pattern hostname) PRIVATE_IP_PATTERNS
        then err (BadRequestError "Blocked: private IP address")
        else if existsb (fun pattern => test pattern hostname) BLOCKED_IPV6_PATTERNS
        then err (BadRequestError "Blocked: private IPv6 address")
        else ok url
  end.

End Guard.

(** ** The platform's [Headers] class

    A header list in the sense of the Fetch Standard.  Names compare
    without case; the object stores the names it is given in lower case,
    which is how every method of the class shows them.  An operation that
    throws a [TypeError] (invalid name or value) yields [None]. *)

Module Headers.

Import Text.
Local Open Scope string_scope.

Definition Headers := list (string * string).

(** What a [Record<string, string>] or a sequence of pairs lists. *)
Definition Entries := list (string * string).

Definition token_char (c : ascii) : bool :=
  is_alnum c || one_of "!#$%&'*+-.^_`|~" c.

Definition valid_name (name : string) : bool :=
  negb (is_empty name) && sforall token_char name.

Definition http_whitespace (c : ascii) : bool :=
  existsb (Nat.eqb (code c)) [9; 10; 13; 32]%nat.

(** Strip leading and trailing HTTP whitespace. *)
Definition normalize (value : string) : string :=
  srev (drop_while http_whitespace (srev (drop_while http_whitespace value))).

Definition valid_value (value : string) : bool :=
  negb (sexists (fun c => existsb (Nat.eqb (code c)) [0; 10; 13]%nat) value).

(** Whether an entry bears the (lower-case) name [name]. *)
Definition named (name : string) (entry : string * string) : bool :=
  String.eqb (toLowerCase (fst entry)) name.

Definition contains (h : Headers) (name : string) : bool :=
  existsb (named name) h.

(** Set the first header called [name] to [value] and drop the others. *)
Fixpoint replace (name value : string) (h : Headers) : Headers :=
  match h with
  | [] => []
  | entry :: r =>
      if named name entry
      then (fst entry, value) :: filter (fun e => negb (named name e)) r
      else entry :: replace name value r
  end.

(** [headers.append(name, value)] *)
Definition append (h : Headers) (name value : string) : option Headers :=
  let value := normalize value in
  if valid_name name && valid_value value
  then Some (h ++ [(toLowerCase name, value)])%list
  else None.

(** [headers.set(name, value)] *)
Definition set (h : Headers) (name value : string) : option Headers :=
  let value := normalize value in
  if valid_name name && valid_value value then
    let name := toLowerCase name in
    Some (if contains h name then replace name value h
          else (h ++ [(name, value)])%list)
  else None.

Definition values (h : Headers) (name : string) : list string :=
  map snd (filter (named name) h).

(** [headers.get(name)] for a valid name: the values joined by [", "]. *)
Definition get (h : Headers) (name : string) : option string :=
  match values h (toLowerCase name) with
  | [] => None
  | vs => Some (join ", " vs)
  end.

(** [headers.getSetCookie()] *)
Definition getSetCookie (h : Headers) : list string := values h "set-cookie".

(** [new Headers(init)]: every entry is appended. *)
Fixpoint fill (h : Headers) (init : Entries) : option Headers :=
  match init with
  | [] => Some h
  | (name, value) :: r =>
      match append h name value with
      | Some h' => fill h' r
      | None => None
      end
  end.

Definition new (init : Entries) : option Headers := fill [] init.

Fixpoint insert_sorted (name : string) (l : list string) : list string :=
  match l with
  | [] => [name]
  | x :: r =>
      if String.eqb name x then l
      else if String.ltb name x then name :: l
      else x :: insert_sorted name r
  end.

(** The distinct names in ascending order. *)
Definition sorted_names (h : Headers) : list string :=
  fold_right insert_sorted [] (map (fun entry => toLowerCase (fst entry)) h).

(** What [headers.forEach] visits (sort and combine): one pair per name
    with the values joined, and one pair per value for [set-cookie]. *)
Definition entries (h : Headers) : Entries :=
  flat_map (fun name =>
              if String.eqb name "set-cookie"
              then map (fun v => (name, v)) (values h name)
              else [(name, join ", " (values h name))])
           (sorted_names h).

(** [list.forEach(([key, value]) => headers.set(key, value))] *)
Fixpoint set_all (h : Headers) (l : Entries) : option Headers :=
  match l with
  | [] => Some h
  | (key, value) :: r =>
      match set h key value with
      | Some h' => set_all h' r
      | None => None
      end
  end.

End Headers.

(** ** The cookie jar

    [cookie-jar.ts] is imported by the client but is not among the source
    files.  The client is written against the methods it calls; a model of
    the class follows the design document. *)

Class CookieJarClass (J : Type) := {
  (** [new CookieJar()] *)
  newCookieJar : J;
  (** [jar.getCookieHeader()]: a string or nothing *)
  getCookieHeader : J -> option string;
  (** [jar.setCookies(lines)], as the jar it leaves *)
  setCookies : J -> list string -> J
}.

Module CookieJar.

Import Text.
Local Open Scope string_scope.

(** Modelled from the spec: the Cookie Store of cookie-jar.ts, a mapping
    from cookie name to value with unique names, in insertion order. *)
Definition CookieJar := list (string * string).

(** Modelled from the spec: the store a client is created with holds no
    cookie. *)
Definition empty : CookieJar := [].

(** Modelled from the spec: upsert, overwriting any existing entry with the
    same name where it stands. *)
Fixpoint upsert (name value : string) (jar : CookieJar) : CookieJar :=
  match jar with
  | [] => [(name, value)]
  | (n, v) :: r =>
      if String.eqb n name then (n, value) :: r
      else (n, v) :: upsert name value r
  end.

(** Modelled from the spec: from one raw Set-Cookie line, extract the
    leading name=value token (up to the first semicolon) and upsert it; an
    entry without an equals sign is skipped. *)
Definition ingest_line (jar : CookieJar) (line : string) : CookieJar :=
  let token := fst (span_until (Ascii.eqb ";") line) in
  match cut "=" token with
  | Some (name, value) => upsert name value jar
  | None => jar
  end.

(** Modelled from the spec: ingest consumes a sequence of Set-Cookie
    lines. *)
Definition ingest (jar : CookieJar) (lines : list string) : CookieJar :=
  fold_left ingest_line lines jar.

(** Modelled from the spec: header renders all stored cookies as
    name=value pairs joined by a semicolon and a space, in insertion order,
    and is absent when no cookies are stored. *)
Definition header (jar : CookieJar) : option string :=
  match jar with
  | [] => None
  | _ => Some (join "; " (map (fun '(n, v) => n ++ "=" ++ v) jar))
  end.

#[global] Instance spec_jar : CookieJarClass CookieJar := {
  newCookieJar := empty;
  getCookieHeader := header;
  setCookies := ingest
}.

End CookieJar.

(** ** [src/utils/http/http-client.ts]: the client *)

Module HttpClient.

Import Text.
Local Open Scope string_scope.

(** [RequestInit], as far as the client and its callers use it. *)
Record RequestInit := mkInit {
  method : option string;
  headers : option Headers.Entries;
  body : option string
}.

(** [options = {}] *)
Definition no_options : RequestInit :=
  {| method := None; headers := None; body := None |}.

(** The second argument of [fetch]: [{...options, headers}]. *)
Record FetchInit := mkFetchInit {
  fetch_method : option string;
  fetch_headers : Headers.Headers;
  fetch_body : option string
}.

Record Response := mkResponse {
  status : Z;
  response_headers : Headers.Headers;
  response_body : string
}.

(** What a rejected [fetch] throws: an [Error] with its message, or any
    other value. *)
Inductive Thrown :=
| ErrorObject (message : string)
| OtherValue.

Inductive FetchOutcome :=
| Fulfilled (res : Response)
| Rejected (error : Thrown).

(** An asynchronous computation whose only suspension point is [fetch]:
    it returns, throws a [TypeError] nobody catches, or awaits [fetch] and
    goes on with what [fetch] settles to. *)
Inductive Async (A : Type) :=
| Return (a : A)
| ThrowTypeError
| AwaitFetch (url : string) (init : FetchInit) (k : FetchOutcome -> Async A).

Arguments Return {A} a.
Arguments ThrowTypeError {A}.
Arguments AwaitFetch {A} url init k.

Definition bind {A B : Type} (o : option A) (f : A -> option B) : option B :=
  match o with
  | Some a => f a
  | None => None
  end.

Notation "x <- c1 ;; c2" := (bind c1 (fun x => c2))
  (at level 61, c1 at next level, right associativity).

Section Client.

Context {J : Type} `{CookieJarClass J}.

Record HttpClient := mkClient {
  cookieJar : J;
  defaultHeaders : Headers.Entries
}.

(** [new HttpClient(cookieJar, defaultHeaders)] *)
Definition constructor (cookieJar : option J)
    (defaultHeaders : option Headers.Entries) : HttpClient :=
  {| cookieJar := match cookieJar with Some j => j | None => newCookieJar end;
     defaultHeaders := match defaultHeaders with Some d => d | None => [] end |}.

Definition createHttpClient (defaultHeaders : option Headers.Entries)
    : HttpClient :=
  constructor None defaultHeaders.

(** The part of [request] between the guard and [fetch]: the [Headers]
    object handed to [fetch]. *)
Definition request_headers (this : HttpClient) (options : RequestInit)
    (customHeaders : option Headers.Entries) : option Headers.Headers :=
  (* 1. Apply default headers first (lowest priority) *)
  headers1 <- Headers.set_all [] (defaultHeaders this) ;;
  (* 2. Apply method-specific headers from options *)
  headers2 <- match headers options with
              | Some init =>
                  optionHeaders <- Headers.new init ;;
                  Headers.set_all headers1 (Headers.entries optionHeaders)
              | None => Some headers1
              end ;;
  (* 3. Apply custom headers last (highest priority, can override everything) *)
  headers3 <- match customHeaders with
              | Some custom => Headers.set_all headers2 custom
              | None => Some headers2
              end ;;
  match getCookieHeader (cookieJar this) with
  | Some cookieHeader =>
      if is_empty cookieHeader then Some headers3
      else Headers.set headers3 "Cookie" cookieHeader
  | None => Some headers3
  end.

Definition request (this : HttpClient) (url : string) (options : RequestInit)
    (customHeaders : option Headers.Entries)
    : Async (Result Response HttpError * HttpClient) :=
  match Guard.validateUrl url with
  | err error => Return (err error, this)
  | ok _ =>
      match request_headers this options customHeaders with
      | None => ThrowTypeError
      | Some headers =>
          AwaitFetch url
            {| fetch_method := method options;
               fetch_headers := headers;
               fetch_body := body options |}
            (fun outcome =>
               match outcome with
               | Fulfilled res =>
                   let cookies := Headers.getSetCookie (response_headers res) in
                   let jar :=
                     if (0 <? List.length cookies)%nat
                     then setCookies (cookieJar this) cookies
                     else cookieJar this in
                   Return (ok res,
                           {| cookieJar := jar;
                              defaultHeaders := defaultHeaders this |})
               | Rejected error =>
                   let message :=
                     match error with
                     | ErrorObject message => message
                     | OtherValue => "Network request failed"
                     end in
                   Return (err (InternalServerError message), this)
               end)
      end
  end.

Definition get (this : HttpClient) (url : string)
    (headers : option Headers.Entries)
    : Async (Result Response HttpError * HttpClient) :=
  request this url {| method := Some "GET"; headers := None; body := None |}
    headers.

End Client.

Arguments HttpClient J : clear implicits.

(** The transport: what [fetch] settles to for a URL and an init. *)
Definition Transport := string -> FetchInit -> FetchOutcome.

Inductive Completion (A : Type) :=
| Returned (a : A)
| Uncaught.

Arguments Returned {A} a.
Arguments Uncaught {A}.

(** Run a computation against a transport: how it completes, and the
    calls of [fetch] it made, in order. *)
Fixpoint run {A : Type} (p : Async A) (fetch : Transport)
    : Completion A * list (string * FetchInit) :=
  match p with
  | Return a => (Returned a, [])
  | ThrowTypeError => (Uncaught, [])
  | AwaitFetch url init k =>
      let '(c, calls) := run (k (fetch url init)) fetch in
      (c, (url, init) :: calls)
  end.

End HttpClient.

(** ** Notions used to state the properties *)

Module Spec.

Import Text.
Local Open Scope string_scope.
Local Open Scope Z_scope.

(** The code unit [timingSafeEqual] reads at index [j]: that of the string,
    or [0] past its end. *)
Definition unit_at (s : JS.jsstring) (j : Z) : Z :=
  if j <? JS.length s then JS.charCodeAt s j else 0.

(** The two conditions of the loop body for [count] consecutive indices
    from [from]; they mention the lengths only. *)
Definition decisions (lenA lenB : Z) (from : Z) (count : nat)
    : list (bool * bool) :=
  map (fun k => let j := Z.of_nat k in (j <? lenA, j <? lenB))
      (seq (Z.to_nat from) count).

(** The textual prefixes the IPv4 patterns of the guard look for: the five
    fixed ones, and [172.] followed by a label from 16 to 31 and a dot. *)
Definition class_B_labels : list string :=
  ["16"; "17"; "18"; "19"; "20"; "21"; "22"; "23";
   "24"; "25"; "26"; "27"; "28"; "29"; "30"; "31"].

Definition private_text_prefixes : list string :=
  ["10."; "127."; "0."; "192.168."; "169.254."]
  ++ map (fun label => "172." ++ label ++ ".") class_B_labels.

Definition private_text_prefix (hostname : string) : bool :=
  existsb (fun p => String.prefix p hostname) private_text_prefixes.

(** The value the entries of one layer give to a header name, starting
    from [acc]: that of the last entry with this name, names compared
    without case, the value stripped of surrounding whitespace. *)
Definition assign (acc : option string) (layer : Headers.Entries)
    (name : string) : option string :=
  fold_left
    (fun acc '(key, value) =>
       if String.eqb (toLowerCase key) (toLowerCase name)
       then Some (Headers.normalize value) else acc)
    layer acc.

Definition assigned (layer : Headers.Entries) (name : string) : option string :=
  assign None layer name.

(** The first layer of the list that gives a value. *)
Fixpoint first_of (candidates : list (option string)) : option string :=
  match candidates with
  | [] => None
  | Some v :: _ => Some v
  | None :: r => first_of r
  end.

(** What the second layer sets: the pairs [optionHeaders.forEach] visits. *)
Definition option_layer (options : HttpClient.RequestInit) : Headers.Entries :=
  match HttpClient.headers options with
  | Some init =>
      match Headers.new init with
      | Some optionHeaders => Headers.entries optionHeaders
      | None => []
      end
  | None => []
  end.

Definition custom_layer (customHeaders : option Headers.Entries)
    : Headers.Entries :=
  match customHeaders with Some custom => custom | None => [] end.

(** The cookie header the client injects: the jar's, when truthy. *)
Definition injected_cookie {J : Type} `{CookieJarClass J}
    (this : HttpClient.HttpClient J) : option string :=
  match getCookieHeader (HttpClient.cookieJar this) with
  | Some cookieHeader => if is_empty cookieHeader then None else Some cookieHeader
  | None => None
  end.

End Spec.

(** ** Sample clients, headers and transports *)

Module Samples.

Import HttpClient.
Local Open Scope string_scope.

(** A client whose jar holds [sid=7]. *)
Definition client_sid : HttpClient CookieJar.CookieJar :=
  constructor (Some [("sid", "7")]) None.

(** A client whose jar has ingested [a=1]. *)
Definition client_a1 : HttpClient CookieJar.CookieJar :=
  constructor (Some (CookieJar.ingest CookieJar.empty ["a=1"])) None.

Definition override_cookie : option Headers.Entries :=
  Some [("Cookie", "session=caller")].

(** Default header {X: 1}, option headers {X: 2, Y: 3}, override {X: 4}. *)
Definition client_X : HttpClient CookieJar.CookieJar :=
  createHttpClient (Some [("X", "1")]).

Definition options_XY : RequestInit :=
  {| method := None; headers := Some [("X", "2"); ("Y", "3")]; body := None |}.

Definition override_X : option Headers.Entries := Some [("X", "4")].

Definition fresh_client : HttpClient CookieJar.CookieJar :=
  createHttpClient None.

(** A 503 response that sets two cookies. *)
Definition response_503 : Response :=
  {| status := 503;
     response_headers := [("Set-Cookie", "a=1; Path=/");
                          ("content-type", "text/plain");
                          ("set-cookie", "b=2")];
     response_body := "unavailable" |}.

Definition answering : Transport := fun _ _ => Fulfilled response_503.

Definition refusing : Transport :=
  fun _ _ => Rejected (ErrorObject "connection refused").

End Samples.

Module GuardSpec.

Import Text.
Local Open Scope string_scope.
Local Open Scope Z_scope.

(** The two leading bytes of a 32-bit IPv4 address. *)
Definition first_octet (n : Z) : Z := n / 16777216 mod 256.
Definition second_octet (n : Z) : Z := n / 65536 mod 256.

(** The address ranges the comments of [PRIVATE_IP_PATTERNS] name:
    127/8, 10/8, 172.16/12, 192.168/16, 169.254/16 and 0/8. *)
Definition private_ipv4 (n : Z) : bool :=
  (first_octet n =? 127) || (first_octet n =? 10)
  || ((first_octet n =? 172) && (16 <=? second_octet n) && (second_octet n <=? 31))
  || ((first_octet n =? 192) && (second_octet n =? 168))
  || ((first_octet n =? 169) && (second_octet n =? 254))
  || (first_octet n =? 0).

End GuardSpec.

(** ** [src/utils/http/http-client.ts]: the convenience methods *)

Module HttpMethods.

Local Close Scope Z_scope.

Import Text HttpClient.
Local Open Scope string_scope.

(** Bytes the application/x-www-form-urlencoded serializer leaves as they
    are: ASCII letters and digits, [*], [-], [.] and [_]. *)
Definition form_safe (c : ascii) : bool := is_alnum c || one_of "*-._" c.

(** One byte, serialized: kept, [+] for a space, or [%XX]. *)
Definition form_byte (c : ascii) : string :=
  if form_safe c then String c EmptyString
  else if Ascii.eqb c " " then "+"
  else String "%" (String (URL.hex_upper (code c / 16))
                     (String (URL.hex_upper (code c mod 16)) EmptyString)).

Fixpoint form_encode (s : string) : string :=
  match s with
  | EmptyString => EmptyString
  | String c r => form_byte c ++ form_encode r
  end.

(** [new URLSearchParams(record).toString()], the record given by its
    entries and every string by its UTF-8 bytes. *)
Definition URLSearchParams_toString (formData : Headers.Entries) : string :=
  join "&" (map (fun '(name, value) =>
                   form_encode name ++ "=" ++ form_encode value) formData).

Section Methods.

Context {J : Type} `{CookieJarClass J}.

(** The type of the values [post] serializes and [JSON.stringify], which
    throws a [TypeError] on some of them. *)
Variable JsonBody : Type.
Variable JSON_stringify : JsonBody -> option string.



End Methods.

End HttpMethods.

Module ClientSpec.

Local Close Scope Z_scope.

Import Text.
Local Open Scope string_scope.

(** An entry [headers.set] or [headers.append] throws on: its name is not
    a token, or its value, once stripped, holds NUL, CR or LF. *)
Definition invalid_entry (entry : string * string) : bool :=
  negb (Headers.valid_name (fst entry)
        && Headers.valid_value (Headers.normalize (snd entry))).

Definition init_layer (options : HttpClient.RequestInit) : Headers.Entries :=
  match HttpClient.headers options with
  | Some init => init
  | None => []
  end.

Fixpoint count (c : ascii) (s : string) : nat :=
  match s with
  | EmptyString => O
  | String d r => (if Ascii.eqb c d then 1 else 0) + count c r
  end.

End ClientSpec.

(** ** JavaScript strings, further primitives *)

Module JSString.

Import JS.
Local Open Scope Z_scope.

(** The code units of a code point, as an escape of the source gives
    them: one unit, or a surrogate pair above [0xFFFF]. *)
Definition cp (n : Z) : jsstring :=
  if n <? 65536 then [n]
  else [55296 + (n - 65536) / 1024; 56320 + (n - 65536) mod 1024].

(** [a === b] on strings. *)
Fixpoint eqb (a b : jsstring) : bool :=
  match a, b with
  | [], [] => true
  | x :: a', y :: b' => (x =? y) && eqb a' b'
  | _, _ => false
  end.

(** [s.split(sep)] for a separator of one code unit. *)
Fixpoint split (sep : Z) (s : jsstring) : list jsstring :=
  match s with
  | [] => [[]]
  | c :: r =>
      if c =? sep then [] :: split sep r
      else match split sep r with
           | [] => [[c]]
           | p :: ps => (c :: p) :: ps
           end
  end.

(** WhiteSpace and LineTerminator of the language: what [trim] removes
    and [parseInt] skips. *)
Definition is_white_space (c : Z) : bool :=
  existsb (Z.eqb c)
    [9; 10; 11; 12; 13; 32; 160; 5760; 8232; 8233; 8239; 8287; 12288; 65279]
  || ((8192 <=? c) && (c <=? 8202)).

Fixpoint trimStart (s : jsstring) : jsstring :=
  match s with
  | c :: r => if is_white_space c then trimStart r else s
  | [] => []
  end.

(** [s.trim()] *)
Definition trim (s : jsstring) : jsstring :=
  rev (trimStart (rev (trimStart s))).

(** [s.replace(/c/g, by)] for a pattern of one literal character and a
    replacement without [$]. *)
Definition replace_all (c : Z) (replacement : jsstring) (s : jsstring)
    : jsstring :=
  flat_map (fun u => if u =? c then replacement else [u]) s.

(** A string in a condition: falsy when empty. *)
Definition truthy (s : jsstring) : bool :=
  match s with [] => false | _ => true end.

Definition is_decimal_digit (c : Z) : bool := (48 <=? c) && (c <=? 57).

Fixpoint digits_value (s : jsstring) (acc : Z) : Z :=
  match s with
  | c :: r => if is_decimal_digit c then digits_value r (acc * 10 + (c - 48))
              else acc
  | [] => acc
  end.

(** [parseInt(s, 10)]: leading white space skipped, an optional sign, the
    longest run of decimal digits; [None] stands for [NaN].  The value is
    the mathematical integer (the source only compares it with a small
    constant, which rounding to a double does not affect). *)
Definition parseInt (s : jsstring) : option Z :=
  let trimmed := trimStart s in
  let '(sign, number) :=
    match trimmed with
    | 45 :: r => (-1, r)
    | 43 :: r => (1, r)
    | _ => (1, trimmed)
    end in
  match number with
  | c :: _ => if is_decimal_digit c then Some (sign * digits_value number 0)
              else None
  | [] => None
  end.

(** ASCII letters to lower case: [toLowerCase] on ASCII text. *)
Definition ascii_toLowerCase (s : jsstring) : jsstring :=
  map (fun c => if (65 <=? c) && (c <=? 90) then c + 32 else c) s.

End JSString.

(** ** The error classes of [utils/error/errors.ts] the routes and the bot
    construct, each with its message *)

Module AppErrors.

Inductive AppError :=
| BadRequestError (message : string)
| UnauthorizedError (message : string)
| ValidationError (message : string)
| NotFoundError (message : string)
| InternalServerError (message : string).

End AppErrors.

(** ** [src/service/telegram.service.ts]

    The calls of the logger are left out. *)

Module TelegramService.

Import JS JSString.
Local Open Scope string_scope.
Local Open Scope Z_scope.

(** The objects handed to [JSON.stringify]: properties in insertion
    order. *)
#[warnings="-register-all"]
Inductive Json :=
| JNumber (n : Z)
| JString (s : jsstring)
| JBool (b : bool)
| JArray (items : list Json)
| JObject (properties : list (string * Json)).

(** What [fetch] is called with: the URL, and in the init the method, the
    headers and, as body, the JSON text of [json]. *)
Record ApiFetch := mkApiFetch {
  api_url : jsstring;
  api_method : string;
  api_headers : Headers.Entries;
  api_json : Json
}.

(** An asynchronous computation that awaits calls of [fetch]. *)
Inductive Script (A : Type) :=
| Done (a : A)
| Await (call : ApiFetch) (k : HttpClient.FetchOutcome -> Script A).

Arguments Done {A} a.
Arguments Await {A} call k.

(** [await p] followed by [f]. *)
Fixpoint bind {A B : Type} (p : Script A) (f : A -> Script B) : Script B :=
  match p with
  | Done a => f a
  | Await call k => Await call (fun outcome => bind (k outcome) f)
  end.

Definition ApiResult := Result bool AppErrors.AppError.

Definition TELEGRAM_API_BASE : jsstring := lit "https://api.telegram.org/bot".

(** [response.ok] *)
Definition response_ok (response : HttpClient.Response) : bool :=
  (200 <=? HttpClient.status response) && (HttpClient.status response <=? 299).

(** A status in a template string. *)
Definition Number_toString (n : Z) : string :=
  if n <? 0 then "-" ++ Text.decimal (- n) else Text.decimal n.

Definition callTelegramApi (botToken : jsstring) (method : string)
    (params : Json) : Script ApiResult :=
  let url := (TELEGRAM_API_BASE ++ botToken ++ lit "/" ++ lit method)%list in
  Await
    {| api_url := url;
       api_method := "POST";
       api_headers := [("Content-Type", "application/json")];
       api_json := params |}
    (fun outcome =>
       match outcome with
       | HttpClient.Fulfilled response =>
           if negb (response_ok response)
           then Done (err (AppErrors.InternalServerError
                             ("Telegram API error: "
                              ++ Number_toString (HttpClient.status response))))
           else Done (ok true)
       | HttpClient.Rejected _ =>
           Done (err (AppErrors.InternalServerError
                        ("Failed to call Telegram API: " ++ method)))
       end).

(** [if (keyboard) params.reply_markup = keyboard] *)
Definition with_reply_markup (keyboard : option Json)
    (params : list (string * Json)) : list (string * Json) :=
  match keyboard with
  | Some k => (params ++ [("reply_markup", k)])%list
  | None => params
  end.

Definition sendMessage (botToken : jsstring) (chatId : Z) (text : jsstring)
    (keyboard : option Json) : Script ApiResult :=
  let params :=
    [("chat_id", JNumber chatId);
     ("text", JString text);
     ("parse_mode", JString (lit "HTML"))] in
  callTelegramApi botToken "sendMessage"
    (JObject (with_reply_markup keyboard params)).

Definition editMessage (botToken : jsstring) (chatId messageId : Z)
    (text : jsstring) (keyboard : option Json) : Script ApiResult :=
  let params :=
    [("chat_id", JNumber chatId);
     ("message_id", JNumber messageId);
     ("text", JString text);
     ("parse_mode", JString (lit "HTML"))] in
  callTelegramApi botToken "editMessageText"
    (JObject (with_reply_markup keyboard params)).

Definition answerCallback (botToken callbackQueryId : jsstring)
    (text : option jsstring) (showAlert : option bool) : Script ApiResult :=
  let params := [("callback_query_id", JString callbackQueryId)] in
  let params :=
    match text with
    | Some t =>
        if truthy t
        then (params ++
              [("text", JString t);
               ("show_alert",
                JBool (match showAlert with Some b => b | None => false end))])%list
        else params
    | None => params
    end in
  callTelegramApi botToken "answerCallbackQuery" (JObject params).

(** Run a computation against a transport: its result and the calls of
    [fetch] it made, in order. *)
Fixpoint run {A : Type} (p : Script A)
    (fetch : ApiFetch -> HttpClient.FetchOutcome) : A * list ApiFetch :=
  match p with
  | Done a => (a, [])
  | Await call k =>
      let '(a, calls) := run (k (fetch call)) fetch in
      (a, call :: calls)
  end.

End TelegramService.

(** ** [src/schema/telegram.ts]: the types the schemas infer

    A [number] of an update is an integer here, as the identifiers and
    dates Telegram sends are. *)

Module TelegramUser.
Record t := mk {
  id : Z;
  is_bot : bool;
  first_name : JS.jsstring;
  last_name : option JS.jsstring;
  username : option JS.jsstring
}.
End TelegramUser.

Module TelegramChat.
Inductive chat_type := private | group | supergroup | channel.
Record t := mk {
  id : Z;
  type : chat_type;
  title : option JS.jsstring;
  username : option JS.jsstring;
  first_name : option JS.jsstring;
  last_name : option JS.jsstring
}.
End TelegramChat.

Module TelegramMessage.
Record t := mk {
  message_id : Z;
  from : option TelegramUser.t;
  chat : TelegramChat.t;
  date : Z;
  text : option JS.jsstring
}.
End TelegramMessage.

Module TelegramCallbackQuery.
Record t := mk {
  id : JS.jsstring;
  from : TelegramUser.t;
  message : option TelegramMessage.t;
  chat_instance : JS.jsstring;
  data : option JS.jsstring
}.
End TelegramCallbackQuery.

Module TelegramUpdate.
Record t := mk {
  update_id : Z;
  message : option TelegramMessage.t;
  edited_message : option TelegramMessage.t;
  callback_query : option TelegramCallbackQuery.t
}.
End TelegramUpdate.

(** ** [src/service/bot-handlers.ts]

    The calls of the logger are left out. *)

Module BotHandlers.

Import JS JSString TelegramService.
Local Open Scope string_scope.
Local Open Scope Z_scope.

Record BotConfig := mkConfig {
  botToken : jsstring;
  appDownloadUrl : jsstring;
  paymentUrl : jsstring;
  supportContact : jsstring;
  premiumPrice : jsstring
}.

Record BotMessages := mkMessages {
  welcome : jsstring;
  trialDetails : jsstring;
  premiumDetails : jsstring;
  trialActivated : jsstring;
  status : jsstring;
  help : jsstring;
  noFingerprint : jsstring
}.

Definition escapeHtml (text : jsstring) : jsstring :=
  replace_all 62 (lit "&gt;")
    (replace_all 60 (lit "&lt;")
       (replace_all 38 (lit "&amp;") text)).

(** A button of an inline keyboard. *)
Definition callback_button (text : jsstring) (callback_data : string) : Json :=
  JObject [("text", JString text); ("callback_data", JString (lit callback_data))].

Definition url_button (text url : jsstring) : Json :=
  JObject [("text", JString text); ("url", JString url)].

Definition keyboard (rows : list (list Json)) : Json :=
  JObject [("inline_keyboard", JArray (map JArray rows))].

Definition back_button : Json :=
  callback_button (cp 0xAB ++ lit " Back")%list "back_main".

Definition MAIN_KEYBOARD : Json :=
  keyboard
    [[callback_button (cp 0x1F381 ++ lit " Trial")%list "view_trial";
      callback_button (cp 0x1F48E ++ lit " Premium")%list "view_premium"];
     [callback_button (cp 0x1F4CA ++ lit " Status")%list "view_status"]].

Definition TRIAL_KEYBOARD : Json :=
  keyboard
    [[callback_button (cp 0x2705 ++ lit " Start Free Trial")%list "trial_start"];
     [back_button]].

Definition BACK_KEYBOARD : Json := keyboard [[back_button]].

Definition getPremiumKeyboard (config : BotConfig) : Json :=
  let price := escapeHtml (premiumPrice config) in
  keyboard
    [[url_button (cp 0x1F4B3 ++ lit " Pay " ++ cp 0x20B9 ++ price)%list
        (paymentUrl config)];
     [back_button]].

Definition getAppDownloadKeyboard (config : BotConfig) : Json :=
  keyboard
    [[url_button (cp 0x1F4E5 ++ lit " Download App")%list
        (appDownloadUrl config)]].

(** A line feed, a double quote, and the rule of twenty box-drawing
    dashes of the templates. *)
Definition nl : jsstring := [10].
Definition quote : jsstring := [34].
Definition rule : jsstring := List.concat (repeat (cp 0x2500) 20).

Definition welcome_text (price : jsstring) : jsstring :=
  List.concat
    [lit "<b>"; cp 0x1F44B; lit " Welcome to Pro ABAS</b>"; nl;
     lit "<i>Mark attendance from anywhere</i>"; nl;
     nl;
     rule; nl;
     nl;
     lit "<b>"; cp 0x1F381; lit " Trial Plan</b> "; cp 0x2014; lit " FREE"; nl;
     cp 0x2022; lit " 7 days full access"; nl;
     cp 0x2022; lit " Mark attendance from anywhere"; nl;
     cp 0x2022; lit " No mock location needed"; nl;
     nl;
     lit "<b>"; cp 0x1F48E; lit " Premium Plan</b> "; cp 0x2014; lit " ";
       cp 0x20B9; price; nl;
     cp 0x2022; lit " 30 days full access"; nl;
     cp 0x2022; lit " Mark attendance from anywhere"; nl;
     cp 0x2022; lit " No mock location needed"; nl;
     nl;
     rule; nl;
     nl;
     lit "Select a plan to view details:"].

Definition trialDetails_text : jsstring :=
  List.concat
    [lit "<b>"; cp 0x1F381; lit " Trial Plan</b>"; nl;
     nl;
     rule; nl;
     nl;
     cp 0x1F4C5; lit " <b>Duration:</b> 7 Days"; nl;
     cp 0x1F4B0; lit " <b>Price:</b> FREE"; nl;
     nl;
     cp 0x2705; lit " <b>Features:</b>"; nl;
     cp 0x2022; lit " Mark attendance from anywhere"; nl;
     cp 0x2022; lit " No mock location app needed"; nl;
     cp 0x2022; lit " Quick & easy one-tap marking"; nl;
     cp 0x2022; lit " All features unlocked"; nl;
     nl;
     cp 0x26A0; cp 0xFE0F; lit " <b>Limitations:</b>"; nl;
     cp 0x2022; lit " One-time use per account"; nl;
     nl;
     rule; nl;
     nl;
     lit "Ready to try Pro ABAS?"].

Definition premiumDetails_text (price : jsstring) : jsstring :=
  List.concat
    [lit "<b>"; cp 0x1F48E; lit " Premium Plan</b>"; nl;
     nl;
     rule; nl;
     nl;
     cp 0x1F4C5; lit " <b>Duration:</b> 30 Days"; nl;
     cp 0x1F4B0; lit " <b>Price:</b> "; cp 0x20B9; price; nl;
     nl;
     cp 0x2705; lit " <b>Features:</b>"; nl;
     cp 0x2022; lit " Mark attendance from anywhere"; nl;
     cp 0x2022; lit " No mock location app needed"; nl;
     cp 0x2022; lit " Quick & easy one-tap marking"; nl;
     cp 0x2022; lit " All features unlocked"; nl;
     cp 0x2022; lit " Renewable anytime"; nl;
     nl;
     rule; nl;
     nl;
     lit "Get full access to Pro ABAS!"].

Definition trialActivated_text (trialExpiry : jsstring) : jsstring :=
  List.concat
    [lit "<b>"; cp 0x2705; lit " Trial Activated!</b>"; nl;
     nl;
     rule; nl;
     nl;
     lit "<b>Plan:</b> 7-Day Trial"; nl;
     lit "<b>Status:</b> Active"; nl;
     lit "<b>Expires:</b> "; trialExpiry; nl;
     nl;
     rule; nl;
     nl;
     lit "Enjoy Pro ABAS! "; cp 0x1F680].

Definition status_text : jsstring :=
  List.concat
    [lit "<b>"; cp 0x1F4CA; lit " Subscription Status</b>"; nl;
     nl;
     rule; nl;
     nl;
     lit "<b>Plan:</b> None"; nl;
     lit "<b>Status:</b> Inactive"; nl;
     lit "<b>Expires:</b> "; cp 0x2014; nl;
     nl;
     rule; nl;
     nl;
     lit "Select a plan from the main menu to get started."].

Definition help_text (support : jsstring) : jsstring :=
  List.concat
    [lit "<b>"; cp 0x2753; lit " Help</b>"; nl;
     nl;
     lit "<b>Commands:</b>"; nl;
     lit "/start "; cp 0x2014; lit " View plans & subscribe"; nl;
     lit "/status "; cp 0x2014; lit " Check subscription"; nl;
     nl;
     lit "<b>Support:</b> "; support].

Definition noFingerprint_text : jsstring :=
  List.concat
    [lit "<b>"; cp 0x1F44B; lit " Welcome to Pro ABAS</b>"; nl;
     lit "<i>Mark location from anywhere</i>"; nl;
     nl;
     rule; nl;
     nl;
     cp 0x1F4CD; lit " Mark attendance from anywhere"; nl;
     cp 0x2705; lit " No mock location needed"; nl;
     cp 0x26A1; lit " Quick one-tap marking"; nl;
     nl;
     rule; nl;
     nl;
     cp 0x1F4F2; lit " <b>Get Started</b>"; nl;
     nl;
     lit "1. Download the Pro ABAS app"; nl;
     lit "2. Open the app"; nl;
     lit "3. Tap "; quote; lit "Get License"; quote; lit " button"; nl;
     nl;
     lit "This will link your device automatically."].


Section Runtime.

(** [String.prototype.toLowerCase], which follows the Unicode tables of
    the engine, and the text of [formatDate(addDays(new Date(), 7))] at
    the time of the call. *)
Variable toLowerCase : jsstring -> jsstring.
Variable trialExpiry : jsstring.

Definition getMessages (config : BotConfig) : BotMessages :=
  let price := escapeHtml (premiumPrice config) in
  let support := escapeHtml (supportContact config) in
  {| welcome := welcome_text price;
     trialDetails := trialDetails_text;
     premiumDetails := premiumDetails_text price;
     trialActivated := trialActivated_text trialExpiry;
     status := status_text;
     help := help_text support;
     noFingerprint := noFingerprint_text |}.

Definition handleMessage (message : TelegramMessage.t) (config : BotConfig)
    : Script ApiResult :=
  let chatId := TelegramChat.id (TelegramMessage.chat message) in
  let text :=
    match TelegramMessage.text message with
    | Some t => toLowerCase (trim t)
    | None => []
    end in
  let messages := getMessages config in
  let appDownloadKeyboard := getAppDownloadKeyboard config in
  let command := nth 0 (split 32 text) [] in
  if eqb command (lit "/start") then
    let fingerprint := nth_error (split 32 text) 1 in
    if negb (match fingerprint with Some f => truthy f | None => false end)
    then sendMessage (botToken config) chatId (noFingerprint messages)
           (Some appDownloadKeyboard)
    else sendMessage (botToken config) chatId (welcome messages)
           (Some MAIN_KEYBOARD)
  else if eqb command (lit "/plans") then
    sendMessage (botToken config) chatId (welcome messages) (Some MAIN_KEYBOARD)
  else if eqb command (lit "/status") then
    sendMessage (botToken config) chatId (status messages) (Some MAIN_KEYBOARD)
  else if eqb command (lit "/help") then
    sendMessage (botToken config) chatId (help messages) (Some MAIN_KEYBOARD)
  else
    sendMessage (botToken config) chatId (noFingerprint messages)
      (Some appDownloadKeyboard).

Definition handleCallbackQuery (query : TelegramCallbackQuery.t)
    (config : BotConfig) : Script ApiResult :=
  let chatId :=
    option_map (fun m => TelegramChat.id (TelegramMessage.chat m))
      (TelegramCallbackQuery.message query) in
  let messageId :=
    option_map TelegramMessage.message_id (TelegramCallbackQuery.message query) in
  let data :=
    match TelegramCallbackQuery.data query with Some d => d | None => [] end in
  let messages := getMessages config in
  let premiumKeyboard := getPremiumKeyboard config in
  (* Always answer the callback to remove loading state *)
  bind (answerCallback (botToken config) (TelegramCallbackQuery.id query)
          None None)
    (fun answerResult =>
       match chatId, messageId with
       | Some chatId, Some messageId =>
           if (chatId =? 0) || (messageId =? 0) then
             Done (err (AppErrors.InternalServerError
                          "Missing callback message context"))
           else if eqb data (lit "view_trial") then
             editMessage (botToken config) chatId messageId
               (trialDetails messages) (Some TRIAL_KEYBOARD)
           else if eqb data (lit "view_premium") then
             editMessage (botToken config) chatId messageId
               (premiumDetails messages) (Some premiumKeyboard)
           else if eqb data (lit "view_status") then
             editMessage (botToken config) chatId messageId
               (status messages) (Some BACK_KEYBOARD)
           else if eqb data (lit "trial_start") then
             editMessage (botToken config) chatId messageId
               (trialActivated messages) (Some BACK_KEYBOARD)
           else if eqb data (lit "back_main") then
             editMessage (botToken config) chatId messageId
               (welcome messages) (Some MAIN_KEYBOARD)
           else Done (ok true)
       | _, _ =>
           Done (err (AppErrors.InternalServerError
                        "Missing callback message context"))
       end).

Definition processUpdate (update : TelegramUpdate.t) (config : BotConfig)
    : Script ApiResult :=
  match TelegramUpdate.callback_query update with
  | Some query => handleCallbackQuery query config
  | None =>
      let message :=
        match TelegramUpdate.message update with
        | Some m => Some m
        | None => TelegramUpdate.edited_message update
        end in
      match message with
      | Some m =>
          if match TelegramMessage.text m with
             | Some t => truthy t
             | None => false
             end
          then handleMessage m config
          else Done (ok true)
      | None => Done (ok true)
      end
  end.

End Runtime.

End BotHandlers.

(** ** [src/routes/index.ts]: the webhook route

    The handler is given by what it reads of the request and of the
    environment; what it hands to [handleResult] is its result. *)

Module Routes.

Import JS JSString TelegramService BotHandlers.
Local Open Scope string_scope.
Local Open Scope Z_scope.

Definition MAX_REQUEST_SIZE : Z := 100 * 1024.

(** The bindings of [c.env] the handler reads; a variable that is not set
    is [None]. *)
Record Env := mkEnv {
  TELEGRAM_WEBHOOK_SECRET : jsstring;
  TELEGRAM_BOT_TOKEN : option jsstring;
  APP_DOWNLOAD_URL : option jsstring;
  PAYMENT_URL : option jsstring;
  SUPPORT_CONTACT : option jsstring;
  PREMIUM_PRICE : option jsstring
}.

(** What [c.req.json()] and then [TelegramUpdateSchema.safeParse] make of
    the body. *)
Inductive Payload :=
| InvalidJson
| InvalidUpdate
| ValidUpdate (data : TelegramUpdate.t).

(** What the handler reads of the request: two headers and the body. *)
Record WebhookRequest := mkRequest {
  content_length : option jsstring;
  secret_token : option jsstring;
  payload : Payload
}.

(** A variable of the environment in a condition. *)
Definition set_value (v : option jsstring) : option jsstring :=
  match v with
  | Some s => if truthy s then Some s else None
  | None => None
  end.

Section Runtime.

Variable toLowerCase : jsstring -> jsstring.
Variable trialExpiry : jsstring.

Definition webhook (env : Env) (req : WebhookRequest)
    : option (Script ApiResult) :=
  (* Check request size to prevent memory exhaustion *)
  let contentLength := content_length req in
  if match contentLength with
     | Some cl =>
         truthy cl &&
         match parseInt cl with
         | Some n => MAX_REQUEST_SIZE <? n
         | None => false
         end
     | None => false
     end
  then Some (Done (err (AppErrors.BadRequestError "Request body too large")))
  else
    (* Validate webhook secret using constant-time comparison *)
    let secret := match secret_token req with Some s => s | None => [] end in
    let webhookSecret := TELEGRAM_WEBHOOK_SECRET env in
    match Crypto.timingSafeEqual secret webhookSecret with
    | None => None
    | Some false =>
        Some (Done (err (AppErrors.UnauthorizedError "Invalid webhook secret")))
    | Some true =>
        match payload req with
        | InvalidJson =>
            Some (Done (err (AppErrors.ValidationError "Invalid JSON body")))
        | InvalidUpdate =>
            Some (Done (err (AppErrors.ValidationError
                               "Invalid Telegram update payload")))
        | ValidUpdate data =>
            match set_value (TELEGRAM_BOT_TOKEN env),
                  set_value (APP_DOWNLOAD_URL env),
                  set_value (PAYMENT_URL env),
                  set_value (SUPPORT_CONTACT env),
                  set_value (PREMIUM_PRICE env) with
            | Some token, Some download, Some payment, Some support, Some price =>
                let config :=
                  {| botToken := token;
                     appDownloadUrl := download;
                     paymentUrl := payment;
                     supportContact := support;
                     premiumPrice := price |} in
                Some (processUpdate toLowerCase trialExpiry data config)
            | _, _, _, _, _ =>
                Some (Done (err (AppErrors.InternalServerError
                                   "Server configuration error")))
            end
        end
    end.

End Runtime.

End Routes.

Module BotSpec.

Import JS JSString TelegramService BotHandlers Routes.
Local Open Scope string_scope.
Local Open Scope Z_scope.

(** What [escapeHtml] makes of one code unit. *)
Definition escape_unit (u : Z) : jsstring :=
  if u =? 38 then lit "&amp;"
  else if u =? 60 then lit "&lt;"
  else if u =? 62 then lit "&gt;"
  else [u].

(** How often a code unit occurs in a string. *)
Definition occurrences (c : Z) (s : jsstring) : nat := count_occ Z.eq_dec s c.

Definition message_list (m : BotMessages) : list jsstring :=
  [welcome m; trialDetails m; premiumDetails m; trialActivated m;
   status m; help m; noFingerprint m].

(** The number of [<] and of [>] of every message. *)
Definition markup (m : BotMessages) : list (nat * nat) :=
  map (fun s => (occurrences 60 s, occurrences 62 s)) (message_list m).

(** The [fetch] call of the Bot API method [method] with [params]. *)
Definition api_call (token : jsstring) (method : string) (params : Json)
    : ApiFetch :=
  {| api_url := (TELEGRAM_API_BASE ++ token ++ lit "/" ++ lit method)%list;
     api_method := "POST";
     api_headers := [("Content-Type", "application/json")];
     api_json := params |}.

Definition answer_call (query : TelegramCallbackQuery.t) (config : BotConfig)
    : ApiFetch :=
  api_call (botToken config) "answerCallbackQuery"
    (JObject [("callback_query_id", JString (TelegramCallbackQuery.id query))]).

(** A call of [sendMessage] in HTML mode with a keyboard. *)
Definition send_call (config : BotConfig) (chatId : Z) (text : jsstring)
    (keyboard : Json) : ApiFetch :=
  api_call (botToken config) "sendMessage"
    (JObject [("chat_id", JNumber chatId);
              ("text", JString text);
              ("parse_mode", JString (lit "HTML"));
              ("reply_markup", keyboard)]).

(** The replies [handleMessage] chooses from: a text and a keyboard. *)
Definition replies (trialExpiry : jsstring) (config : BotConfig)
    : list (jsstring * Json) :=
  let messages := getMessages trialExpiry config in
  [(welcome messages, MAIN_KEYBOARD);
   (status messages, MAIN_KEYBOARD);
   (help messages, MAIN_KEYBOARD);
   (noFingerprint messages, getAppDownloadKeyboard config)].

(** The edits [handleCallbackQuery] chooses from. *)
Definition edits (trialExpiry : jsstring) (config : BotConfig)
    : list (jsstring * Json) :=
  let messages := getMessages trialExpiry config in
  [(trialDetails messages, TRIAL_KEYBOARD);
   (premiumDetails messages, getPremiumKeyboard config);
   (status messages, BACK_KEYBOARD);
   (trialActivated messages, BACK_KEYBOARD);
   (welcome messages, MAIN_KEYBOARD)].

(** A call of [editMessageText] in HTML mode with a keyboard. *)
Definition edit_call (config : BotConfig) (chatId messageId : Z)
    (text : jsstring) (keyboard : Json) : ApiFetch :=
  api_call (botToken config) "editMessageText"
    (JObject [("chat_id", JNumber chatId);
              ("message_id", JNumber messageId);
              ("text", JString text);
              ("parse_mode", JString (lit "HTML"));
              ("reply_markup", keyboard)]).

(** A callback query that lacks the context the handler needs: no
    message, or a chat or message identifier that is zero. *)
Definition lacks_context (query : TelegramCallbackQuery.t) : bool :=
  match TelegramCallbackQuery.message query with
  | Some m =>
      (TelegramChat.id (TelegramMessage.chat m) =? 0)
      || (TelegramMessage.message_id m =? 0)
  | None => true
  end.

(** The declared length the route refuses. *)
Definition too_large (req : WebhookRequest) : bool :=
  match content_length req with
  | Some cl =>
      truthy cl &&
      match parseInt cl with
      | Some n => MAX_REQUEST_SIZE <? n
      | None => false
      end
  | None => false
  end.

(** The secret a request presents: its header, or the empty string. *)
Definition presented_secret (req : WebhookRequest) : jsstring :=
  match secret_token req with Some s => s | None => [] end.

End BotSpec.

Module BotSamples.

Import JS JSString TelegramService BotHandlers Routes.
Local Open Scope string_scope.
Local Open Scope Z_scope.

Definition config : BotConfig :=
  {| botToken := lit "123:ABC";
     appDownloadUrl := lit "https://example.com/app";
     paymentUrl := lit "https://example.com/pay";
     supportContact := lit "@help <x>";
     premiumPrice := lit "499 & up" |}.

Definition chat : TelegramChat.t :=
  TelegramChat.mk 42 TelegramChat.private None None None None.

Definition message (text : string) : TelegramMessage.t :=
  TelegramMessage.mk 7 None chat 0 (Some (lit text)).

Definition user : TelegramUser.t :=
  TelegramUser.mk 5 false (lit "A") None None.

(** A press of the Premium button under message 7 of chat 42. *)
Definition query : TelegramCallbackQuery.t :=
  TelegramCallbackQuery.mk (lit "cb1") user (Some (message "menu"))
    (lit "ci") (Some (lit "view_premium")).

(** The same press, without the message it belongs to. *)
Definition orphan_query : TelegramCallbackQuery.t :=
  TelegramCallbackQuery.mk (lit "cb1") user None (lit "ci")
    (Some (lit "view_premium")).

Definition response (status : Z) : HttpClient.Response :=
  HttpClient.mkResponse status [] EmptyString.

(** A transport that answers 200 to everything. *)
Definition accepting : ApiFetch -> HttpClient.FetchOutcome :=
  fun _ => HttpClient.Fulfilled (response 200).

(** A transport that fails the acknowledgement of [query] and answers 200
    to everything else. *)
Definition failing_answers : ApiFetch -> HttpClient.FetchOutcome :=
  fun call =>
    if eqb (api_url call) (api_url (BotSpec.answer_call query config))
    then HttpClient.Rejected HttpClient.OtherValue
    else HttpClient.Fulfilled (response 200).

Definition env : Env :=
  {| TELEGRAM_WEBHOOK_SECRET := lit "s3cret";
     TELEGRAM_BOT_TOKEN := Some (lit "123:ABC");
     APP_DOWNLOAD_URL := Some (lit "https://example.com/app");
     PAYMENT_URL := Some (lit "https://example.com/pay");
     SUPPORT_CONTACT := Some (lit "@help <x>");
     PREMIUM_PRICE := Some (lit "499 & up") |}.

Definition update : TelegramUpdate.t :=
  TelegramUpdate.mk 1 (Some (message "/help")) None None.

Definition request (secret : string) : WebhookRequest :=
  {| content_length := Some (lit "512");
     secret_token := Some (lit secret);
     payload := ValidUpdate update |}.

Definition expiry : jsstring := lit "9 Nov 2026".

End BotSamples.

(** * Properties *)

(** ** The constant-time comparator *)

Module CryptoProofs.

Import JS Crypto Spec.

Lemma int32_shiftr x : int32 x <-> (Z.shiftr x 31 = 0 \/ Z.shiftr x 31 = -1).
Proof.
  unfold int32. rewrite Z.shiftr_div_pow2 by lia.
  pose proof (Z.div_mod x (2 ^ 31) ltac:(lia)) as E.
  pose proof (Z.mod_pos_bound x (2 ^ 31) ltac:(lia)) as B.
  change (2 ^ 31) with 2147483648 in *. lia.
Qed.

Lemma int32_lor x y : int32 x -> int32 y -> int32 (Z.lor x y).
Proof.
  rewrite !int32_shiftr, Z.shiftr_lor.
  intros [-> | ->] [-> | ->]; cbn; auto.
Qed.

Lemma int32_lxor x y : int32 x -> int32 y -> int32 (Z.lxor x y).
Proof.
  rewrite !int32_shiftr, Z.shiftr_lxor.
  intros [-> | ->] [-> | ->]; cbn; auto.
Qed.

Lemma toInt32_int32 x : int32 (toInt32 x).
Proof.
  unfold int32, toInt32.
  pose proof (Z.mod_pos_bound (x + 2 ^ 31) (2 ^ 32) ltac:(lia)).
  change (2 ^ 31) with 2147483648 in *.
  change (2 ^ 32) with 4294967296 in *. lia.
Qed.

Lemma toInt32_id x : int32 x -> toInt32 x = x.
Proof.
  unfold int32, toInt32. intros Hx.
  rewrite Z.mod_small; lia.
Qed.

(** Two lengths below [2^32] that ToInt32 sends to the same value are
    equal. *)
Lemma toInt32_inj x y :
  0 <= x < 2 ^ 32 -> 0 <= y < 2 ^ 32 -> toInt32 x = toInt32 y -> x = y.
Proof.
  unfold toInt32. intros Hx Hy Heq.
  pose proof (Z.div_mod (x + 2 ^ 31) (2 ^ 32) ltac:(lia)).
  pose proof (Z.div_mod (y + 2 ^ 31) (2 ^ 32) ltac:(lia)).
  pose proof (Z.mod_pos_bound (x + 2 ^ 31) (2 ^ 32) ltac:(lia)).
  pose proof (Z.mod_pos_bound (y + 2 ^ 31) (2 ^ 32) ltac:(lia)).
  change (2 ^ 31) with 2147483648 in *.
  change (2 ^ 32) with 4294967296 in *. lia.
Qed.

Lemma xor_int32 x y : int32 (bit_xor x y).
Proof. apply int32_lxor; apply toInt32_int32. Qed.

Lemma or_int32 x y : int32 (bit_or x y).
Proof. apply int32_lor; apply toInt32_int32. Qed.

Lemma xor_eq_0 x y :
  0 <= x < 2 ^ 32 -> 0 <= y < 2 ^ 32 -> (bit_xor x y = 0 <-> x = y).
Proof.
  intros Hx Hy. unfold bit_xor. rewrite Z.lxor_eq_0_iff. split.
  - now apply toInt32_inj.
  - now intros ->.
Qed.

Lemma or_eq_0 r d : int32 r -> int32 d -> (bit_or r d = 0 <-> r = 0 /\ d = 0).
Proof.
  intros Hr Hd. unfold bit_or. rewrite !toInt32_id by assumption.
  apply Z.lor_eq_0_iff.
Qed.

Lemma loop_body_result a b st :
  result (loop_body a b st) =
  bit_or (result st) (bit_xor (unit_at a (i st)) (unit_at b (i st))).
Proof. reflexivity. Qed.

(** The loop from any state: it ends, it has run once per index left, its
    decisions are those of the lengths, and its accumulator is zero exactly
    when it was zero and every remaining pair of code units agrees. *)
Lemma for_loop_spec a b maxLen fuel :
  forall st,
    0 <= i st ->
    (Z.to_nat (maxLen - i st) < fuel)%nat ->
    int32 (result st) ->
    exists st',
      for_loop fuel maxLen a b st = Some st' /\
      branches st' =
        branches st ++
        decisions (length a) (length b) (i st) (Z.to_nat (maxLen - i st)) /\
      int32 (result st') /\
      (result st' = 0 <->
         result st = 0 /\
         forall j, i st <= j < maxLen -> bit_xor (unit_at a j) (unit_at b j) = 0).
Proof.
  induction fuel as [|fuel IH]; intros st Hi Hfuel Hres; [lia|].
  cbn [for_loop]. destruct (Z.ltb_spec (i st) maxLen) as [Hlt | Hge].
  - destruct (IH (loop_body a b st)) as (st' & Hrun & Htr & Hint & Hzero).
    + cbn. lia.
    + cbn [loop_body i]. lia.
    + rewrite loop_body_result. apply or_int32.
    + exists st'. split; [exact Hrun|]. split; [|split; [exact Hint|]].
      * rewrite Htr. cbn [loop_body branches i].
        replace (Z.to_nat (maxLen - i st))
          with (S (Z.to_nat (maxLen - (i st + 1)))) by lia.
        unfold decisions. cbn [seq map]. rewrite <- app_assoc. cbn [app].
        rewrite Z2Nat.id by lia.
        replace (Z.to_nat (i st + 1)) with (S (Z.to_nat (i st))) by lia.
        reflexivity.
      * rewrite Hzero, loop_body_result, or_eq_0
          by (assumption || apply xor_int32).
        cbn [loop_body i]. split.
        -- intros [[H0 Hx] Hall]. split; [exact H0|]. intros j Hj.
           destruct (Z.eq_dec j (i st)) as [-> | Hne]; [exact Hx|].
           apply Hall. lia.
        -- intros [H0 Hall]. repeat split; [exact H0 | apply Hall; lia |].
           intros j Hj. apply Hall. lia.
  - exists st. split; [reflexivity|].
    replace (Z.to_nat (maxLen - i st)) with 0%nat by lia.
    unfold decisions. cbn. rewrite app_nil_r. split; [reflexivity|].
    split; [exact Hres|]. split; [|tauto].
    intros H0. split; [exact H0|]. intros j Hj. lia.
Qed.

Lemma length_nonneg s : 0 <= length s.
Proof. unfold length. lia. Qed.

Lemma timingSafeEqual_loop_spec a b fuel :
  (enough a b <= fuel)%nat ->
  exists st,
    timingSafeEqual_loop fuel a b = Some st /\
    branches st =
      decisions (length a) (length b) 0
        (Nat.max (List.length a) (List.length b)) /\
    (result st = 0 <->
       bit_xor (length a) (length b) = 0 /\
       forall j, 0 <= j < Z.max (length a) (length b) ->
                 bit_xor (unit_at a j) (unit_at b j) = 0).
Proof.
  intros Hfuel. unfold timingSafeEqual_loop.
  destruct (for_loop_spec a b (Z.max (length a) (length b)) fuel
              {| i := 0; result := bit_xor (length a) (length b);
                 branches := [] |})
    as (st & Hrun & Htr & _ & Hzero).
  - cbn. lia.
  - cbn [i]. unfold enough, length in *. lia.
  - apply xor_int32.
  - exists st. split; [exact Hrun|]. split; [|exact Hzero].
    rewrite Htr. cbn [branches i app]. f_equal. unfold length. lia.
Qed.

Lemma decisions_length la lb from count :
  List.length (decisions la lb from count) = count.
Proof. unfold decisions. now rewrite length_map, length_seq. Qed.

Lemma unit_at_code_unit s j :
  wf_jsstring s -> 0 <= j -> code_unit (unit_at s j).
Proof.
  intros Hwf Hj. unfold unit_at, charCodeAt.
  destruct (Z.ltb_spec j (length s)) as [Hlt | Hge]; [|unfold code_unit; lia].
  unfold wf_jsstring in Hwf. rewrite Forall_forall in Hwf. apply Hwf, nth_In.
  unfold length in Hlt. lia.
Qed.

Lemma code_unit_word c : code_unit c -> 0 <= c < 2 ^ 32.
Proof. unfold code_unit. change (2 ^ 32) with 4294967296. lia. Qed.

Lemma units_agree_eq a b :
  List.length a = List.length b ->
  (forall j, 0 <= j < length a -> unit_at a j = unit_at b j) ->
  a = b.
Proof.
  intros Hlen Hall. apply (nth_ext a b 0 0 Hlen). intros n Hn.
  specialize (Hall (Z.of_nat n)). unfold unit_at, charCodeAt, length in Hall.
  rewrite <- Hlen in Hall.
  destruct (Z.ltb_spec (Z.of_nat n) (Z.of_nat (List.length a))); [|lia].
  rewrite Nat2Z.id in Hall. apply Hall. lia.
Qed.

Lemma lit_wf s : wf_jsstring (lit s).
Proof.
  induction s as [|c s IH]; constructor; [|exact IH].
  unfold code_unit. pose proof (nat_ascii_bounded c). lia.
Qed.

(** C3. For all strings [a] and [b] (sequences of 16-bit code units, of a
    length below [2^32], which every engine enforces), empty ones included,
    [timingSafeEqual a b] returns a result with any fuel from [enough a b]
    on, and that result is [true] if and only if [a = b]. *)
Theorem timingSafeEqual_correct (a b : jsstring) :
  wf_jsstring a -> wf_jsstring b ->
  length a < 2 ^ 32 -> length b < 2 ^ 32 ->
  exists r,
    (forall fuel, (enough a b <= fuel)%nat ->
                  timingSafeEqual_fuel fuel a b = Some r) /\
    timingSafeEqual a b = Some r /\
    (r = true <-> a = b).
Proof.
  intros Ha Hb La Lb.
  pose proof (length_nonneg a) as Na. pose proof (length_nonneg b) as Nb.
  assert (Hspec : forall fuel, (enough a b <= fuel)%nat ->
            exists r, timingSafeEqual_fuel fuel a b = Some r /\
                      (r = true <-> a = b)).
  { intros fuel Hfuel.
    destruct (timingSafeEqual_loop_spec a b fuel Hfuel)
      as (st & Hrun & _ & Hzero).
    unfold timingSafeEqual_fuel. rewrite Hrun.
    eexists. split; [reflexivity|].
    rewrite Z.eqb_eq, Hzero, xor_eq_0 by lia. split.
    - intros [Hlen Hall].
      assert (Hl : List.length a = List.length b)
        by (unfold length in Hlen; lia).
      apply units_agree_eq; [exact Hl|]. intros j Hj.
      apply xor_eq_0.
      + apply code_unit_word, unit_at_code_unit; [assumption | lia].
      + apply code_unit_word, unit_at_code_unit; [assumption | lia].
      + apply Hall. lia.
    - intros ->. split; [reflexivity|]. intros j Hj.
      unfold bit_xor. apply Z.lxor_nilpotent. }
  destruct (Hspec (enough a b) (le_n _)) as (r & Hr & Hiff).
  exists r. split; [|split; [exact Hr | exact Hiff]].
  intros fuel Hfuel. destruct (Hspec fuel Hfuel) as (r' & Hr' & Hiff').
  rewrite Hr'. f_equal.
  destruct r, r'; try reflexivity.
  - apply Hiff', Hiff. reflexivity.
  - symmetry. apply Hiff, Hiff'. reflexivity.
Qed.

Lemma timingSafeEqual_correct_witness :
  exists r,
    (forall fuel, (enough (lit "abc") (lit "abd") <= fuel)%nat ->
                  timingSafeEqual_fuel fuel (lit "abc") (lit "abd") = Some r) /\
    timingSafeEqual (lit "abc") (lit "abd") = Some r /\
    (r = true <-> lit "abc" = lit "abd").
Proof.
  apply (timingSafeEqual_correct (lit "abc") (lit "abd")).
  - apply lit_wf.
  - apply lit_wf.
  - reflexivity.
  - reflexivity.
Defined.

(** C4. The loop of [timingSafeEqual] runs exactly [max (len a) (len b)]
    times, three times on ("abc","abd") and on ("aaa","zaa"), and the
    decisions taken inside it are determined by the two lengths: two pairs
    of strings with the same lengths take the same decisions, wherever they
    first differ. *)
Theorem timingSafeEqual_iterations :
  (forall a b,
     iterations a b = Some (Nat.max (List.length a) (List.length b))) /\
  iterations (lit "abc") (lit "abd") = Some 3%nat /\
  iterations (lit "aaa") (lit "zaa") = Some 3%nat /\
  (forall a b a' b',
     length a = length a' -> length b = length b' ->
     branch_trace a b = branch_trace a' b' /\
     iterations a b = iterations a' b').
Proof.
  assert (Hit : forall a b,
            iterations a b = Some (Nat.max (List.length a) (List.length b))).
  { intros a b.
    destruct (timingSafeEqual_loop_spec a b (enough a b) (le_n _))
      as (st & Hrun & Htr & _).
    unfold iterations. rewrite Hrun, Htr, decisions_length. reflexivity. }
  split; [exact Hit|]. split; [reflexivity|]. split; [reflexivity|].
  intros a b a' b' Ha Hb. split.
  - destruct (timingSafeEqual_loop_spec a b (enough a b) (le_n _))
      as (st & Hrun & Htr & _).
    destruct (timingSafeEqual_loop_spec a' b' (enough a' b') (le_n _))
      as (st' & Hrun' & Htr' & _).
    unfold branch_trace. rewrite Hrun, Hrun', Htr, Htr', Ha, Hb.
    unfold length in Ha, Hb.
    replace (List.length a') with (List.length a) by lia.
    replace (List.length b') with (List.length b) by lia.
    reflexivity.
  - rewrite !Hit. unfold length in Ha, Hb.
    replace (List.length a') with (List.length a) by lia.
    replace (List.length b') with (List.length b) by lia.
    reflexivity.
Qed.

Lemma timingSafeEqual_iterations_witness :
  length (lit "abc") = length (lit "aaa") /\
  length (lit "abd") = length (lit "zaa") /\
  branch_trace (lit "abc") (lit "abd") = branch_trace (lit "aaa") (lit "zaa") /\
  iterations (lit "abc") (lit "abd") = iterations (lit "aaa") (lit "zaa").
Proof.
  split; [reflexivity|]. split; [reflexivity|].
  destruct timingSafeEqual_iterations as (_ & _ & _ & Hsame).
  apply (Hsame (lit "abc") (lit "abd") (lit "aaa") (lit "zaa")); reflexivity.
Defined.

End CryptoProofs.

(** ** The URL guard *)

Module GuardProofs.

Import Text RegExp Guard Spec.
Local Open Scope string_scope.

Lemma prefix_split p : forall h,
  String.prefix p h = true -> exists rest, h = p ++ rest.
Proof.
  induction p as [|a p IH]; intros h Hp.
  - exists h. reflexivity.
  - destruct h as [|b h]; [discriminate|]. cbn in Hp.
    destruct (ascii_dec a b) as [-> | Hne]; [|discriminate].
    destruct (IH h Hp) as [rest ->]. exists rest. reflexivity.
Qed.

Lemma toLowerCase_app a b :
  toLowerCase (a ++ b) = toLowerCase a ++ toLowerCase b.
Proof.
  unfold toLowerCase. induction a as [|c a IH]; cbn; [reflexivity|].
  now rewrite IH.
Qed.

(** A host name with one of the textual prefixes matches a private-range
    pattern, whatever follows the prefix. *)
Lemma private_prefix_matches hostname :
  private_text_prefix hostname = true ->
  existsb (fun pattern => test pattern (toLowerCase hostname))
          PRIVATE_IP_PATTERNS = true.
Proof.
  unfold private_text_prefix. rewrite existsb_exists.
  intros (p & Hin & Hp). destruct (prefix_split p hostname Hp) as [rest ->].
  rewrite toLowerCase_app. generalize (toLowerCase rest) as tail. intros tail.
  cbn in Hin.
  repeat (destruct Hin as [<- | Hin]; [reflexivity|]).
  contradiction.
Qed.

(** Every failure of the guard is a [BadRequestError]. *)
Lemma validateUrl_err urlString error :
  validateUrl urlString = err error -> exists m, error = BadRequestError m.
Proof.
  unfold validateUrl. intros Hv.
  repeat match type of Hv with
         | context [match ?x with _ => _ end] => destruct x
         end;
    inversion Hv; eexists; reflexivity.
Qed.

(** The eight entries of the rejection list the guard does reject. *)
Example validateUrl_rejects :
  validateUrl "ftp://example.com"
    = err (BadRequestError "Blocked protocol: ftp:") /\
  validateUrl "http://localhost/"
    = err (BadRequestError "Blocked hostname: localhost") /\
  validateUrl "http://127.0.0.1/"
    = err (BadRequestError "Blocked: private IP address") /\
  validateUrl "http://10.1.2.3/"
    = err (BadRequestError "Blocked: private IP address") /\
  validateUrl "http://172.20.0.5/"
    = err (BadRequestError "Blocked: private IP address") /\
  validateUrl "http://192.168.1.1/"
    = err (BadRequestError "Blocked: private IP address") /\
  validateUrl "http://169.254.1.1/"
    = err (BadRequestError "Blocked: private IP address") /\
  validateUrl "http://[::1]/"
    = err (BadRequestError "Blocked: private IPv6 address").
Proof. repeat split; vm_compute; reflexivity. Qed.

(** The acceptance list: the guard returns the parsed URL. *)
Example validateUrl_accepts :
  URL.new "https://example.com/path"
    = Some {| URL.protocol := "https:"; URL.hostname := "example.com" |} /\
  validateUrl "https://example.com/path"
    = ok {| URL.protocol := "https:"; URL.hostname := "example.com" |} /\
  URL.new "http://8.8.8.8/"
    = Some {| URL.protocol := "http:"; URL.hostname := "8.8.8.8" |} /\
  validateUrl "http://8.8.8.8/"
    = ok {| URL.protocol := "http:"; URL.hostname := "8.8.8.8" |}.
Proof. repeat split; vm_compute; reflexivity. Qed.

(** C1. [new URL] serialises an IPv6 host inside brackets, so the host
    names of the link-local and unique-local entries of the rejection list
    start with a bracket; the patterns for these two classes are anchored
    on the bare address, match neither, and [validateUrl] returns the
    parsed URL as a success for both. *)
Theorem validateUrl_bracketed_ipv6_accepted :
  URL.new "http://[fe80::1]/"
    = Some {| URL.protocol := "http:"; URL.hostname := "[fe80::1]" |} /\
  validateUrl "http://[fe80::1]/"
    = ok {| URL.protocol := "http:"; URL.hostname := "[fe80::1]" |} /\
  URL.new "http://[fc00::1]/"
    = Some {| URL.protocol := "http:"; URL.hostname := "[fc00::1]" |} /\
  validateUrl "http://[fc00::1]/"
    = ok {| URL.protocol := "http:"; URL.hostname := "[fc00::1]" |} /\
  existsb (fun pattern => test pattern "fe80::1") BLOCKED_IPV6_PATTERNS = true /\
  existsb (fun pattern => test pattern "fc00::1") BLOCKED_IPV6_PATTERNS = true.
Proof. repeat split; vm_compute; reflexivity. Qed.

(** C10. The IPv4 private-range check is a test on the text of the host
    name: the two public-looking names are refused as private IP
    addresses, and every URL whose host name begins with one of the
    prefixes is refused, with that message or, for a name of the fixed
    block set, with the one of the block set. *)
Theorem private_range_check_is_textual :
  validateUrl "http://10.example.com/"
    = err (BadRequestError "Blocked: private IP address") /\
  validateUrl "http://172.20.downloads.example.com/"
    = err (BadRequestError "Blocked: private IP address") /\
  (forall urlString url,
     URL.new urlString = Some url ->
     private_text_prefix (URL.hostname url) = true ->
     exists m,
       validateUrl urlString = err (BadRequestError m) /\
       (URL.protocol url = "http:" \/ URL.protocol url = "https:" ->
        m = "Blocked: private IP address" \/
        m = "Blocked hostname: localhost")).
Proof.
  split; [vm_compute; reflexivity|]. split; [vm_compute; reflexivity|].
  intros urlString url Hnew Hprefix. unfold validateUrl. rewrite Hnew.
  destruct (negb (String.eqb (URL.protocol url) "http:")
            && negb (String.eqb (URL.protocol url) "https:")) eqn:Hproto.
  - eexists. split; [reflexivity|].
    intros [Hp | Hp]; rewrite Hp in Hproto; discriminate.
  - cbv zeta.
    destruct (includes BLOCKED_HOSTNAMES (toLowerCase (URL.hostname url))).
    + eexists. split; [reflexivity|]. intros _. right. reflexivity.
    + rewrite (private_prefix_matches _ Hprefix).
      eexists. split; [reflexivity|]. intros _. left. reflexivity.
Qed.

Lemma private_range_check_is_textual_witness :
  URL.new "http://172.20.downloads.example.com/"
    = Some {| URL.protocol := "http:";
              URL.hostname := "172.20.downloads.example.com" |} /\
  private_text_prefix "172.20.downloads.example.com" = true /\
  exists m,
    validateUrl "http://172.20.downloads.example.com/"
      = err (BadRequestError m) /\
    ("http:" = "http:" \/ "http:" = "https:" ->
     m = "Blocked: private IP address" \/ m = "Blocked hostname: localhost").
Proof.
  split; [reflexivity|]. split; [reflexivity|].
  destruct private_range_check_is_textual as (_ & _ & Hall).
  apply (Hall "http://172.20.downloads.example.com/"
              {| URL.protocol := "http:";
                 URL.hostname := "172.20.downloads.example.com" |});
    reflexivity.
Defined.

End GuardProofs.

(** ** The [Headers] class *)

Module HeadersProofs.

Import Text Headers Spec.
Local Open Scope string_scope.

Lemma lower_idempotent c : lower (lower c) = lower c.
Proof. destruct c as [[] [] [] [] [] [] [] []]; reflexivity. Qed.

Lemma toLowerCase_idempotent s : toLowerCase (toLowerCase s) = toLowerCase s.
Proof.
  unfold toLowerCase. induction s as [|c s IH]; cbn; [reflexivity|].
  now rewrite lower_idempotent, IH.
Qed.

Lemma values_app h1 h2 name :
  values (h1 ++ h2)%list name = (values h1 name ++ values h2 name)%list.
Proof. unfold values. now rewrite filter_app, map_app. Qed.

Lemma values_absent h name : contains h name = false -> values h name = [].
Proof.
  unfold contains, values. induction h as [|e h IH]; cbn; [reflexivity|].
  destruct (named name e); cbn; [discriminate|]. exact IH.
Qed.

Lemma values_filter_other h n m :
  n <> m ->
  values (filter (fun e => negb (named n e)) h) m = values h m.
Proof.
  intros Hne. unfold values. induction h as [|e h IH]; cbn; [reflexivity|].
  unfold named in *.
  destruct (String.eqb_spec (toLowerCase (fst e)) n) as [He | He]; cbn.
  - destruct (String.eqb_spec (toLowerCase (fst e)) m) as [Hm | Hm];
      [congruence|]. exact IH.
  - destruct (String.eqb (toLowerCase (fst e)) m); cbn; now rewrite IH.
Qed.

Lemma values_filter_same h n :
  values (filter (fun e => negb (named n e)) h) n = [].
Proof.
  unfold values. induction h as [|e h IH]; cbn; [reflexivity|].
  destruct (named n e) eqn:He; cbn; [exact IH|]. rewrite He. exact IH.
Qed.

Lemma values_replace_same h n v :
  contains h n = true -> values (replace n v h) n = [v].
Proof.
  unfold contains. induction h as [|e h IH]; [discriminate|].
  cbn [existsb replace]. destruct (named n e) eqn:He.
  - intros _. unfold values. cbn [filter].
    change (named n (fst e, v)) with (named n e). rewrite He.
    cbn [map snd]. f_equal. apply values_filter_same.
  - intros Hc. unfold values. cbn [filter]. rewrite He. apply IH, Hc.
Qed.

Lemma values_replace_other h n v m :
  n <> m -> values (replace n v h) m = values h m.
Proof.
  intros Hne. induction h as [|e h IH]; [reflexivity|].
  cbn [replace]. destruct (named n e) eqn:He.
  - unfold values. cbn [filter].
    change (named m (fst e, v)) with (named m e).
    unfold named in He. apply String.eqb_eq in He.
    assert (Hm : named m e = false).
    { unfold named. apply String.eqb_neq. congruence. }
    rewrite Hm. apply values_filter_other, Hne.
  - unfold values in *. cbn [filter].
    destruct (named m e); cbn [map]; now rewrite IH.
Qed.

Lemma values_single key v :
  values [(toLowerCase key, v)] (toLowerCase key) = [v].
Proof.
  unfold values, named. cbn.
  now rewrite toLowerCase_idempotent, String.eqb_refl.
Qed.

Lemma values_single_other key v m :
  toLowerCase key <> m -> values [(toLowerCase key, v)] m = [].
Proof.
  intros Hne. unfold values, named. cbn. rewrite toLowerCase_idempotent.
  apply String.eqb_neq in Hne. now rewrite Hne.
Qed.

(** What [get] returns after a [set]. *)
Lemma get_set h key value h' name :
  set h key value = Some h' ->
  get h' name =
  if String.eqb (toLowerCase key) (toLowerCase name)
  then Some (normalize value) else get h name.
Proof.
  unfold set. destruct (valid_name key && valid_value (normalize value));
    [|discriminate].
  intros [= <-]. unfold get.
  destruct (String.eqb_spec (toLowerCase key) (toLowerCase name)) as [<- | Hne].
  - destruct (contains h (toLowerCase key)) eqn:Hc.
    + now rewrite values_replace_same.
    + now rewrite values_app, (values_absent _ _ Hc), values_single.
  - destruct (contains h (toLowerCase key)) eqn:Hc.
    + now rewrite values_replace_other.
    + now rewrite values_app, values_single_other, app_nil_r.
Qed.

(** What [get] returns after a layer has been applied. *)
Lemma get_set_all layer : forall h h' name,
  set_all h layer = Some h' ->
  get h' name = assign (get h name) layer name.
Proof.
  induction layer as [|[key value] layer IH]; intros h h' name; cbn.
  - now intros [= <-].
  - destruct (set h key value) as [h1|] eqn:Hset; [|discriminate].
    intros Hall. rewrite (IH _ _ _ Hall), (get_set _ _ _ _ name Hset).
    reflexivity.
Qed.

(** A layer overrides what came before exactly on the names it assigns. *)
Lemma assign_first acc layer name :
  assign acc layer name = first_of [assigned layer name; acc].
Proof.
  unfold assigned, assign. revert acc.
  induction layer as [|[key value] layer IH]; intros acc; cbn [fold_left].
  - now destruct acc.
  - destruct (String.eqb (toLowerCase key) (toLowerCase name)).
    + rewrite (IH (Some (normalize value))). cbn.
      now destruct (fold_left _ layer None).
    + apply IH.
Qed.

(** [getSetCookie] lists the values of all entries named Set-Cookie. *)
Lemma getSetCookie_all h v :
  In v (getSetCookie h) <->
  exists key, toLowerCase key = "set-cookie" /\ In (key, v) h.
Proof.
  unfold getSetCookie, values. rewrite in_map_iff. split.
  - intros ([key v'] & Hv & Hin). cbn in Hv. subst v'.
    apply filter_In in Hin. destruct Hin as [Hin Hname].
    exists key. split; [|exact Hin]. now apply String.eqb_eq in Hname.
  - intros (key & Hkey & Hin). exists (key, v). split; [reflexivity|].
    apply filter_In. split; [exact Hin|]. unfold named. cbn.
    now apply String.eqb_eq.
Qed.

End HeadersProofs.

(** ** The client *)

Module ClientProofs.

Import Text HttpClient Spec Samples HeadersProofs.
Local Open Scope string_scope.

Section Generic.

Context {J : Type} `{CookieJarClass J}.

(** The steps of [request_headers] when no [TypeError] is thrown. *)
Lemma request_headers_steps (this : HttpClient J) options customHeaders h :
  request_headers this options customHeaders = Some h ->
  exists h1 h2 h3,
    Headers.set_all [] (defaultHeaders this) = Some h1 /\
    Headers.set_all h1 (option_layer options) = Some h2 /\
    Headers.set_all h2 (custom_layer customHeaders) = Some h3 /\
    match injected_cookie this with
    | Some cookieHeader => Headers.set h3 "Cookie" cookieHeader
    | None => Some h3
    end = Some h.
Proof.
  unfold request_headers, option_layer, custom_layer, injected_cookie, bind.
  destruct (Headers.set_all [] (defaultHeaders this)) as [h1|]; [|discriminate].
  intros Hh. exists h1.
  destruct (headers options) as [init|].
  - destruct (Headers.new init) as [optionHeaders|]; [|discriminate].
    destruct (Headers.set_all h1 (Headers.entries optionHeaders)) as [h2|];
      [|discriminate].
    exists h2.
    destruct customHeaders as [custom|].
    + destruct (Headers.set_all h2 custom) as [h3|]; [|discriminate].
      exists h3. repeat split; try reflexivity.
      destruct (getCookieHeader (cookieJar this)) as [c|]; [|exact Hh].
      destruct (is_empty c); exact Hh.
    + exists h2. repeat split; try reflexivity.
      destruct (getCookieHeader (cookieJar this)) as [c|]; [|exact Hh].
      destruct (is_empty c); exact Hh.
  - exists h1.
    destruct customHeaders as [custom|].
    + destruct (Headers.set_all h1 custom) as [h3|]; [|discriminate].
      exists h3. repeat split; try reflexivity.
      destruct (getCookieHeader (cookieJar this)) as [c|]; [|exact Hh].
      destruct (is_empty c); exact Hh.
    + exists h1. repeat split; try reflexivity.
      destruct (getCookieHeader (cookieJar this)) as [c|]; [|exact Hh].
      destruct (is_empty c); exact Hh.
Qed.

(** The three layers, before the cookie header is injected. *)
Lemma layers_get (this : HttpClient J) options customHeaders h1 h2 h3 name :
  Headers.set_all [] (defaultHeaders this) = Some h1 ->
  Headers.set_all h1 (option_layer options) = Some h2 ->
  Headers.set_all h2 (custom_layer customHeaders) = Some h3 ->
  Headers.get h3 name =
  first_of [assigned (custom_layer customHeaders) name;
            assigned (option_layer options) name;
            assigned (defaultHeaders this) name].
Proof.
  intros H1 H2 H3.
  rewrite (get_set_all _ _ _ name H3), (get_set_all _ _ _ name H2),
    (get_set_all _ _ _ name H1).
  rewrite !assign_first. cbn.
  destruct (assigned (custom_layer customHeaders) name);
    destruct (assigned (option_layer options) name);
    destruct (assigned (defaultHeaders this) name); reflexivity.
Qed.

(** The headers handed to [fetch], name by name. *)
Lemma request_headers_get (this : HttpClient J) options customHeaders h name :
  request_headers this options customHeaders = Some h ->
  Headers.get h name =
  first_of [ match injected_cookie this with
             | Some cookieHeader =>
                 if String.eqb (toLowerCase name) "cookie"
                 then Some (Headers.normalize cookieHeader) else None
             | None => None
             end;
             assigned (custom_layer customHeaders) name;
             assigned (option_layer options) name;
             assigned (defaultHeaders this) name ].
Proof.
  intros Hh.
  destruct (request_headers_steps _ _ _ _ Hh)
    as (h1 & h2 & h3 & H1 & H2 & H3 & Hc).
  pose proof (layers_get this options customHeaders h1 h2 h3 name H1 H2 H3)
    as Hl.
  destruct (injected_cookie this) as [c|].
  - rewrite (get_set _ _ _ _ name Hc). change (toLowerCase "Cookie") with "cookie".
    rewrite String.eqb_sym.
    destruct (String.eqb (toLowerCase name) "cookie"); [reflexivity|].
    exact Hl.
  - injection Hc as <-. exact Hl.
Qed.

(** When the guard refuses the URL, [request] is over at once. *)
Lemma request_refused (this : HttpClient J) url options customHeaders error :
  Guard.validateUrl url = err error ->
  request this url options customHeaders = Return (err error, this).
Proof. intros Hv. unfold request. now rewrite Hv. Qed.

(** When the guard accepts the URL and the headers are built, [request]
    awaits one [fetch]. *)
Lemma request_run (this : HttpClient J) url options customHeaders parsed h fetch :
  Guard.validateUrl url = ok parsed ->
  request_headers this options customHeaders = Some h ->
  let init := {| fetch_method := method options;
                 fetch_headers := h;
                 fetch_body := body options |} in
  run (request this url options customHeaders) fetch =
  match fetch url init with
  | Fulfilled res =>
      (Returned (ok res,
                 {| cookieJar :=
                      match Headers.getSetCookie (response_headers res) with
                      | [] => cookieJar this
                      | _ :: _ =>
                          setCookies (cookieJar this)
                            (Headers.getSetCookie (response_headers res))
                      end;
                    defaultHeaders := defaultHeaders this |}),
       [(url, init)])
  | Rejected (ErrorObject message) =>
      (Returned (err (InternalServerError message), this), [(url, init)])
  | Rejected OtherValue =>
      (Returned (err (InternalServerError "Network request failed"), this),
       [(url, init)])
  end.
Proof.
  intros Hv Hh init. unfold request. rewrite Hv, Hh. cbn [run]. fold init.
  destruct (fetch url init) as [res | [message|]]; cbn [run]; try reflexivity.
  destruct (Headers.getSetCookie (response_headers res)); reflexivity.
Qed.

(** A success comes from a response of the transport to the one call made,
    after the guard accepted the URL. *)
Lemma request_success_inv (this : HttpClient J) url options customHeaders
    fetch res this' calls :
  run (request this url options customHeaders) fetch
    = (Returned (ok res, this'), calls) ->
  exists parsed h,
    Guard.validateUrl url = ok parsed /\
    request_headers this options customHeaders = Some h /\
    fetch url {| fetch_method := method options;
                 fetch_headers := h;
                 fetch_body := body options |} = Fulfilled res.
Proof.
  intros Hrun.
  destruct (Guard.validateUrl url) as [parsed | error] eqn:Hv.
  - destruct (request_headers this options customHeaders) as [h|] eqn:Hh.
    + exists parsed, h. split; [reflexivity|]. split; [reflexivity|].
      rewrite (request_run this url options customHeaders parsed h fetch Hv Hh)
        in Hrun.
      cbv zeta in Hrun.
      destruct (fetch url _) as [res' | [message|]]; inversion Hrun.
      reflexivity.
    + unfold request in Hrun. rewrite Hv, Hh in Hrun. discriminate.
  - rewrite (request_refused _ _ _ _ _ Hv) in Hrun. discriminate.
Qed.

End Generic.

(** C2. When the guard refuses the URL, [request] returns the guard's
    failure, a [BadRequestError], as it is; it is over before any call of
    [fetch] (against any transport the list of calls is empty) and the
    client, its cookie jar included, is the one it started with. *)
Theorem request_blocked_target (J : Type) (ops : CookieJarClass J)
    (this : HttpClient J) url options customHeaders error :
  Guard.validateUrl url = err error ->
  (exists m, error = BadRequestError m) /\
  request this url options customHeaders = Return (err error, this) /\
  forall fetch,
    run (request this url options customHeaders) fetch
      = (Returned (err error, this), []).
Proof.
  intros Hv. split; [exact (GuardProofs.validateUrl_err _ _ Hv)|].
  rewrite (request_refused _ _ _ _ _ Hv). split; reflexivity.
Qed.

Lemma request_blocked_target_witness :
  Guard.validateUrl "http://169.254.1.1/"
    = err (BadRequestError "Blocked: private IP address") /\
  forall fetch,
    run (request client_sid "http://169.254.1.1/" no_options None) fetch
      = (Returned (err (BadRequestError "Blocked: private IP address"),
                   client_sid),
         []).
Proof.
  split; [reflexivity|].
  apply (request_blocked_target CookieJar.CookieJar _ client_sid
           "http://169.254.1.1/" no_options None
           (BadRequestError "Blocked: private IP address")).
  reflexivity.
Defined.

(** Whatever the caller's headers say, a truthy cookie header of the jar
    is the [Cookie] header handed to [fetch]. *)
Lemma request_cookie_header (J : Type) (ops : CookieJarClass J)
    (this : HttpClient J) options customHeaders h cookieHeader :
  request_headers this options customHeaders = Some h ->
  injected_cookie this = Some cookieHeader ->
  Headers.get h "Cookie" = Some (Headers.normalize cookieHeader).
Proof.
  intros Hh Hc. rewrite (request_headers_get _ _ _ _ "Cookie" Hh), Hc.
  reflexivity.
Qed.

(** C5. A client whose jar holds [a=1], called with the override header
    [Cookie: session=caller]: the [Cookie] header handed to [fetch] is the
    jar's [a=1]; the caller's value is overwritten. *)
Theorem request_cookie_overwrites_override :
  getCookieHeader (cookieJar client_a1) = Some "a=1" /\
  assigned (custom_layer override_cookie) "Cookie" = Some "session=caller" /\
  forall fetch,
    snd (run (request client_a1 "https://example.com/path" no_options
                override_cookie) fetch)
    = [("https://example.com/path",
        {| fetch_method := None;
           fetch_headers := [("cookie", "a=1")];
           fetch_body := None |})].
Proof.
  split; [reflexivity|]. split; [reflexivity|].
  intros fetch.
  rewrite (request_run client_a1 "https://example.com/path" no_options
             override_cookie
             {| URL.protocol := "https:"; URL.hostname := "example.com" |}
             [("cookie", "a=1")] fetch);
    [|vm_compute; reflexivity|vm_compute; reflexivity].
  cbv zeta.
  destruct (fetch _ _) as [res | [message|]]; reflexivity.
Qed.

(** C6. The headers handed to [fetch] are the three layers applied in
    increasing priority: for every name (names compare without case) the
    value is that of the override headers if they assign the name, else
    that of the option headers, else that of the default headers; the
    cookie header of the jar aside.  With default {X: 1}, option
    {X: 2, Y: 3} and override {X: 4} the headers are X: 4 and Y: 3 and
    nothing else. *)
Theorem header_layering :
  (forall (J : Type) (ops : CookieJarClass J) (this : HttpClient J)
          options customHeaders h,
     request_headers this options customHeaders = Some h ->
     (forall url parsed fetch,
        Guard.validateUrl url = ok parsed ->
        snd (run (request this url options customHeaders) fetch)
        = [(url, {| fetch_method := method options;
                    fetch_headers := h;
                    fetch_body := body options |})]) /\
     (forall name,
        injected_cookie this = None \/ toLowerCase name <> "cookie" ->
        Headers.get h name =
        first_of [assigned (custom_layer customHeaders) name;
                  assigned (option_layer options) name;
                  assigned (defaultHeaders this) name])) /\
  (request_headers client_X options_XY override_X
     = Some [("x", "4"); ("y", "3")] /\
   Headers.get [("x", "4"); ("y", "3")] "X" = Some "4" /\
   Headers.get [("x", "4"); ("y", "3")] "Y" = Some "3" /\
   Headers.entries [("x", "4"); ("y", "3")] = [("x", "4"); ("y", "3")]).
Proof.
  split.
  - intros J ops this options customHeaders h Hh. split.
    + intros url parsed fetch Hv.
      rewrite (request_run this url options customHeaders parsed h fetch Hv Hh).
      cbv zeta. destruct (fetch url _) as [res | [message|]]; reflexivity.
    + intros name Hname.
      rewrite (request_headers_get _ _ _ _ name Hh).
      destruct Hname as [-> | Hne]; [reflexivity|].
      apply String.eqb_neq in Hne. rewrite Hne.
      now destruct (injected_cookie this).
  - repeat split; vm_compute; reflexivity.
Qed.

Lemma header_layering_witness :
  request_headers client_X options_XY override_X
    = Some [("x", "4"); ("y", "3")] /\
  Guard.validateUrl "https://example.com/path"
    = ok {| URL.protocol := "https:"; URL.hostname := "example.com" |} /\
  snd (run (request client_X "https://example.com/path" options_XY override_X)
           refusing)
    = [("https://example.com/path",
        {| fetch_method := None;
           fetch_headers := [("x", "4"); ("y", "3")];
           fetch_body := None |})] /\
  Headers.get [("x", "4"); ("y", "3")] "X" =
  first_of [assigned (custom_layer override_X) "X";
            assigned (option_layer options_XY) "X";
            assigned (defaultHeaders client_X) "X"].
Proof.
  split; [reflexivity|]. split; [reflexivity|].
  destruct header_layering as [Hall _].
  assert (Hh : request_headers client_X options_XY override_X
               = Some [("x", "4"); ("y", "3")]) by reflexivity.
  destruct (Hall CookieJar.CookieJar _ client_X options_XY override_X
              [("x", "4"); ("y", "3")] Hh) as [Hcall Hget].
  split.
  - apply (Hcall "https://example.com/path"
             {| URL.protocol := "https:"; URL.hostname := "example.com" |}).
    reflexivity.
  - apply Hget. left. reflexivity.
Defined.

(** C7. When the guard has accepted the URL and [fetch] throws, [request]
    returns the failure [InternalServerError] with the message of the
    error thrown if it is an [Error], and with "Network request failed" if
    it is anything else; nothing is left uncaught, [fetch] was called once
    and the client, its cookie jar included, is unchanged. *)
Theorem request_network_error (J : Type) (ops : CookieJarClass J)
    (this : HttpClient J) url options customHeaders fetch parsed h error :
  Guard.validateUrl url = ok parsed ->
  request_headers this options customHeaders = Some h ->
  fetch url {| fetch_method := method options;
               fetch_headers := h;
               fetch_body := body options |} = Rejected error ->
  exists m,
    run (request this url options customHeaders) fetch
    = (Returned (err (InternalServerError m), this),
       [(url, {| fetch_method := method options;
                 fetch_headers := h;
                 fetch_body := body options |})]) /\
    (forall message, error = ErrorObject message -> m = message) /\
    (error = OtherValue -> m = "Network request failed").
Proof.
  intros Hv Hh Hfetch.
  rewrite (request_run this url options customHeaders parsed h fetch Hv Hh).
  cbv zeta. rewrite Hfetch. destruct error as [message|].
  - exists message. split; [reflexivity|]. split; [|discriminate].
    now intros message' [= ->].
  - eexists. split; [reflexivity|]. split; [discriminate|reflexivity].
Qed.

Lemma request_network_error_witness :
  Guard.validateUrl "http://8.8.8.8/"
    = ok {| URL.protocol := "http:"; URL.hostname := "8.8.8.8" |} /\
  request_headers client_sid no_options None = Some [("cookie", "sid=7")] /\
  exists m,
    run (request client_sid "http://8.8.8.8/" no_options None) refusing
    = (Returned (err (InternalServerError m), client_sid),
       [("http://8.8.8.8/",
         {| fetch_method := None;
            fetch_headers := [("cookie", "sid=7")];
            fetch_body := None |})]) /\
    (forall message, ErrorObject "connection refused" = ErrorObject message ->
                     m = message) /\
    (ErrorObject "connection refused" = OtherValue ->
     m = "Network request failed").
Proof.
  split; [reflexivity|]. split; [reflexivity|].
  apply (request_network_error CookieJar.CookieJar _ client_sid
           "http://8.8.8.8/" no_options None refusing
           {| URL.protocol := "http:"; URL.hostname := "8.8.8.8" |}
           [("cookie", "sid=7")] (ErrorObject "connection refused"));
    reflexivity.
Defined.

(** C8. When the guard has accepted the URL and [fetch] answers, whatever
    the status of the response, [request] hands every value of the
    response's Set-Cookie headers to the jar (none to hand when there is
    none) and returns the response as a success; and a success is only
    ever returned for a URL the guard accepted. *)
Theorem request_response :
  (forall (J : Type) (ops : CookieJarClass J) (this : HttpClient J)
          url options customHeaders fetch parsed h res,
     Guard.validateUrl url = ok parsed ->
     request_headers this options customHeaders = Some h ->
     fetch url {| fetch_method := method options;
                  fetch_headers := h;
                  fetch_body := body options |} = Fulfilled res ->
     let cookies := Headers.getSetCookie (response_headers res) in
     run (request this url options customHeaders) fetch
     = (Returned (ok res,
                  {| cookieJar :=
                       match cookies with
                       | [] => cookieJar this
                       | _ => setCookies (cookieJar this) cookies
                       end;
                     defaultHeaders := defaultHeaders this |}),
        [(url, {| fetch_method := method options;
                  fetch_headers := h;
                  fetch_body := body options |})]) /\
     (forall v,
        In v cookies <->
        exists key, toLowerCase key = "set-cookie" /\
                    In (key, v) (response_headers res))) /\
  (forall (J : Type) (ops : CookieJarClass J) (this : HttpClient J)
          url options customHeaders fetch res this' calls,
     run (request this url options customHeaders) fetch
       = (Returned (ok res, this'), calls) ->
     exists parsed, Guard.validateUrl url = ok parsed).
Proof.
  split.
  - intros J ops this url options customHeaders fetch parsed h res Hv Hh Hfetch.
    cbv zeta. split.
    + rewrite (request_run this url options customHeaders parsed h fetch Hv Hh).
      cbv zeta. rewrite Hfetch. reflexivity.
    + intros v. apply getSetCookie_all.
  - intros J ops this url options customHeaders fetch res this' calls Hrun.
    destruct (request_success_inv _ _ _ _ _ _ _ _ Hrun) as (parsed & _ & Hv & _).
    exists parsed. exact Hv.
Qed.

Lemma request_response_witness :
  run (request fresh_client "https://example.com/path" no_options None)
      answering
  = (Returned (ok response_503,
               {| cookieJar := [("a", "1"); ("b", "2")];
                  defaultHeaders := [] |}),
     [("https://example.com/path",
       {| fetch_method := None; fetch_headers := []; fetch_body := None |})])
  /\ exists parsed, Guard.validateUrl "https://example.com/path" = ok parsed.
Proof.
  destruct request_response as [Hall Honly].
  assert (Hrun :
    run (request fresh_client "https://example.com/path" no_options None)
        answering
    = (Returned (ok response_503,
                 {| cookieJar := [("a", "1"); ("b", "2")];
                    defaultHeaders := [] |}),
       [("https://example.com/path",
         {| fetch_method := None; fetch_headers := []; fetch_body := None |})])).
  { refine (proj1 (Hall CookieJar.CookieJar _ fresh_client
                     "https://example.com/path" no_options None answering
                     {| URL.protocol := "https:";
                        URL.hostname := "example.com" |}
                     [] response_503 _ _ _)); reflexivity. }
  split; [exact Hrun|].
  exact (Honly CookieJar.CookieJar _ fresh_client "https://example.com/path"
           no_options None answering response_503 _ _ Hrun).
Defined.

(** The cookies a response sets are sent back with the next request. *)
Example cookies_replayed :
  request_headers
    {| cookieJar := [("a", "1"); ("b", "2")]; defaultHeaders := [] |}
    no_options None
  = Some [("cookie", "a=1; b=2")].
Proof. reflexivity. Qed.

End ClientProofs.

(** ** The cookie store *)

Module CookieJarProofs.

Import CookieJar.
Local Open Scope string_scope.

(** An upsert of a stored name keeps every name where it stands. *)
Lemma upsert_in_place name value jar :
  In name (map fst jar) -> map fst (upsert name value jar) = map fst jar.
Proof.
  induction jar as [|[n v] jar IH]; cbn; [contradiction|].
  destruct (String.eqb_spec n name) as [-> | Hne]; [reflexivity|].
  intros [Heq | Hin]; [contradiction|]. cbn. now rewrite IH.
Qed.

(** C9. From an empty store, ingesting [a=1] then [b=2] makes the header
    [a=1; b=2]; ingesting [a=9] afterwards updates [a] where it stands and
    the header is [a=9; b=2]; the header of an empty store is absent. *)
Theorem cookie_round_trip :
  header empty = None /\
  header (ingest empty ["a=1"; "b=2"]) = Some "a=1; b=2" /\
  header (ingest (ingest empty ["a=1"]) ["b=2"]) = Some "a=1; b=2" /\
  ingest (ingest empty ["a=1"; "b=2"]) ["a=9"] = [("a", "9"); ("b", "2")] /\
  header (ingest (ingest empty ["a=1"; "b=2"]) ["a=9"]) = Some "a=9; b=2".
Proof. repeat split. Qed.

End CookieJarProofs.

Module GuardMore.

Local Close Scope Z_scope.

Import Text RegExp Guard Spec GuardSpec.
Local Open Scope string_scope.

Lemma strip_prefix_exact t : forall s r,
  strip_prefix false t s = Some r -> s = t ++ r.
Proof.
  induction t as [|a t IH]; intros s r; cbn.
  - now intros [= ->].
  - destruct s as [|b s]; [discriminate|].
    unfold same_char. destruct (Ascii.eqb_spec a b) as [-> | Hne]; [|discriminate].
    intros Hs. now rewrite (IH _ _ Hs).
Qed.

Lemma run_chars t s rest :
  In rest (run false (Chars t) s) -> s = t ++ rest.
Proof.
  cbn [run]. destruct (strip_prefix false t s) as [r|] eqn:Hs; [|contradiction].
  intros [<- | []]. now apply strip_prefix_exact.
Qed.

Lemma run_class lo hi s rest :
  In rest (run false (Class [(lo, hi)]) s) ->
  exists c, s = String c rest /\ between lo hi c = true.
Proof.
  cbn [run]. destruct s as [|c s]; [contradiction|].
  unfold in_class. cbn [existsb]. rewrite andb_false_l, !orb_false_r.
  destruct (between lo hi c) eqn:Hb; [|contradiction].
  intros [<- | []]. exists c. split; [reflexivity | exact Hb].
Qed.

Lemma run_seq i r1 r2 s rest :
  In rest (run i (Seq r1 r2) s) ->
  exists mid, In mid (run i r1 s) /\ In rest (run i r2 mid).
Proof. cbn [run]. rewrite in_flat_map. intros (mid & H1 & H2). eauto. Qed.

Lemma run_alt i r1 r2 s rest :
  In rest (run i (Alt r1 r2) s) ->
  In rest (run i r1 s) \/ In rest (run i r2 s).
Proof. cbn [run]. now rewrite in_app_iff. Qed.

Lemma test_matches p s :
  test p s = true ->
  exists rest, In rest (run (ignoreCase p) (body p) s) /\
               (to_end p = true -> rest = EmptyString).
Proof.
  unfold test. rewrite existsb_exists. intros (rest & Hin & Hend).
  exists rest. split; [exact Hin|]. intros Hto. rewrite Hto in Hend.
  cbn in Hend. now destruct rest.
Qed.

Lemma digit_enum c :
  is_digit c = true ->
  In c ["0"; "1"; "2"; "3"; "4"; "5"; "6"; "7"; "8"; "9"]%char.
Proof.
  destruct c as [[] [] [] [] [] [] [] []]; vm_compute; intros H;
    try discriminate H; auto 12.
Qed.

(** A character in a range of digits is one of the digits of the range. *)
Lemma between_digits lo hi c :
  is_digit lo = true -> is_digit hi = true ->
  between lo hi c = true ->
  In c (filter (between lo hi)
          ["0"; "1"; "2"; "3"; "4"; "5"; "6"; "7"; "8"; "9"]%char).
Proof.
  intros Hlo Hhi Hb. apply filter_In. split; [|exact Hb].
  apply digit_enum. unfold is_digit, between in *.
  apply andb_true_iff in Hlo, Hhi, Hb. apply andb_true_iff.
  rewrite !Nat.leb_le in *. lia.
Qed.

(** The IPv4 patterns match a host name exactly when it begins with one
    of the textual prefixes. *)
Lemma private_patterns_exact h :
  existsb (fun pattern => test pattern h) PRIVATE_IP_PATTERNS
  = private_text_prefix h.
Proof.
  apply eq_true_iff_eq. split.
  - rewrite existsb_exists. intros (p & Hin & Ht).
    apply test_matches in Ht. destruct Ht as (rest & Hrun & _).
    cbn in Hin.
    destruct Hin as [<- | [<- | [<- | [<- | [<- | [<- | []]]]]]];
      cbn [ignoreCase body prefix_pattern] in Hrun;
      try (apply run_chars in Hrun; subst h; destruct rest; reflexivity).
    apply run_seq in Hrun. destruct Hrun as (m1 & H1 & Hrun).
    apply run_chars in H1. subst h.
    apply run_seq in Hrun. destruct Hrun as (m2 & H2 & Hrun).
    apply run_chars in Hrun. subst m2.
    apply run_alt in H2. destruct H2 as [H2 | H2];
      [|apply run_alt in H2; destruct H2 as [H2 | H2]];
      apply run_seq in H2; destruct H2 as (m3 & H3 & H2);
      apply run_chars in H3; subst m1;
      apply run_class in H2; destruct H2 as (c & -> & Hc);
      apply between_digits in Hc; try reflexivity;
      cbn in Hc;
      repeat (destruct Hc as [<- | Hc]; [destruct rest; reflexivity|]);
      contradiction.
  - unfold private_text_prefix. rewrite existsb_exists.
    intros (p & Hin & Hp). destruct (GuardProofs.prefix_split p h Hp) as [rest ->].
    cbn in Hin.
    repeat (destruct Hin as [<- | Hin]; [reflexivity|]).
    contradiction.
Qed.


Lemma prefix_append p r : String.prefix p (p ++ r) = true.
Proof.
  induction p as [|a p IH]; cbn.
  - now destruct r.
  - destruct (ascii_dec a a) as [_ | Hne]; [exact IH | contradiction].
Qed.

Lemma has_private_prefix p r :
  In p private_text_prefixes -> private_text_prefix (p ++ r) = true.
Proof.
  intros Hin. unfold private_text_prefix. apply existsb_exists.
  exists p. split; [exact Hin | apply prefix_append].
Qed.

(** A URL whose host name has one of the textual prefixes is refused. *)
Lemma private_prefix_refused urlString url :
  URL.new urlString = Some url ->
  private_text_prefix (URL.hostname url) = true ->
  exists m, validateUrl urlString = err (BadRequestError m).
Proof.
  intros Hnew Hp. unfold validateUrl. rewrite Hnew.
  destruct (negb _ && negb _); [eexists; reflexivity|]. cbv zeta.
  destruct (includes _ _); [eexists; reflexivity|].
  rewrite (GuardProofs.private_prefix_matches _ Hp). eexists. reflexivity.
Qed.

(** X1. [validateUrl] answers "Blocked: private IP address" exactly for
    the URLs that parse with protocol http: or https:, whose lower-cased
    host name is not in the fixed block set and begins with [10.], [127.],
    [0.], [192.168.], [169.254.] or [172.] followed by a label from 16 to
    31 and a dot; a host name with any other beginning is never refused
    with this message. *)
Theorem private_ip_refusal_exact urlString :
  validateUrl urlString = err (BadRequestError "Blocked: private IP address")
  <->
  exists url,
    URL.new urlString = Some url /\
    (URL.protocol url = "http:" \/ URL.protocol url = "https:") /\
    includes BLOCKED_HOSTNAMES (toLowerCase (URL.hostname url)) = false /\
    private_text_prefix (toLowerCase (URL.hostname url)) = true.
Proof.
  unfold validateUrl. destruct (URL.new urlString) as [url|].
  - destruct (String.eqb_spec (URL.protocol url) "http:") as [Hh | Hh];
      destruct (String.eqb_spec (URL.protocol url) "https:") as [Hs | Hs];
      cbn [negb andb]; cbv zeta;
      try (rewrite private_patterns_exact;
           destruct (includes BLOCKED_HOSTNAMES (toLowerCase (URL.hostname url)))
             eqn:Hin;
           [split; [discriminate | intros (u & [= <-] & _ & Hf & _); congruence]
           |destruct (private_text_prefix (toLowerCase (URL.hostname url)))
              eqn:Hp;
            [split; [intros _; exists url; auto | reflexivity]
            |split;
             [destruct (existsb _ BLOCKED_IPV6_PATTERNS); discriminate
             |intros (u & [= <-] & _ & _ & Hf); congruence]]]).
    split; [intros [= Hm]; discriminate Hm|].
    intros (u & [= <-] & [Hp | Hp] & _); contradiction.
  - split; [discriminate | intros (u & Hu & _); discriminate].
Qed.

Lemma private_ip_refusal_exact_witness :
  validateUrl "http://172.20.0.1:8080/admin"
  = err (BadRequestError "Blocked: private IP address").
Proof.
  apply (proj2 (private_ip_refusal_exact "http://172.20.0.1:8080/admin")).
  eexists. split; [reflexivity|].
  split; [left; reflexivity|]. split; reflexivity.
Defined.

Lemma decimal_octets n :
  URL.ipv4_serialize n =
  decimal (first_octet n) ++ "." ++ decimal (second_octet n) ++ "."
  ++ decimal (n / 256 mod 256) ++ "." ++ decimal (n mod 256).
Proof. reflexivity. Qed.

(** The dotted-decimal text of an address of a private range begins with
    one of the prefixes. *)
Lemma private_ipv4_text n :
  private_ipv4 n = true -> private_text_prefix (URL.ipv4_serialize n) = true.
Proof.
  unfold private_ipv4. rewrite decimal_octets.
  generalize (decimal (n / 256 mod 256) ++ "." ++ decimal (n mod 256)).
  generalize (first_octet n) (second_octet n). intros a b tail.
  rewrite !orb_true_iff, !andb_true_iff, !Z.eqb_eq, !Z.leb_le.
  intros [[[[[-> | ->] | [[-> H16] H31]] | [-> ->]] | [-> ->]] | ->].
  - generalize (decimal b ++ "." ++ tail). intros r.
    apply (has_private_prefix "127." r). cbn. auto.
  - generalize (decimal b ++ "." ++ tail). intros r.
    apply (has_private_prefix "10." r). cbn. auto.
  - assert (Hb : In b [16; 17; 18; 19; 20; 21; 22; 23;
                       24; 25; 26; 27; 28; 29; 30; 31]%Z).
    { cbn. lia. }
    cbn in Hb.
    repeat (destruct Hb as [<- | Hb];
            [match goal with
             | |- private_text_prefix
                    (decimal 172 ++ "." ++ decimal ?k ++ "." ++ tail) = true =>
                 apply (has_private_prefix ("172." ++ decimal k ++ ".") tail);
                 cbn; auto 30
             end|]).
    contradiction.
  - apply (has_private_prefix "192.168." tail). cbn. auto 10.
  - apply (has_private_prefix "169.254." tail). cbn. auto 10.
  - generalize (decimal b ++ "." ++ tail). intros r.
    apply (has_private_prefix "0." r). cbn. auto.
Qed.

(** X2. Whatever notation the URL uses for an IPv4 address (dotted,
    hexadecimal, octal, a single number), when [new URL] gives a host name
    that is the dotted-decimal text of an address in 127/8, 10/8,
    172.16/12, 192.168/16, 169.254/16 or 0/8, [validateUrl] refuses the
    URL. *)
Theorem private_ipv4_refused urlString url n :
  URL.new urlString = Some url ->
  URL.hostname url = URL.host_serialize (URL.IPv4 n) ->
  private_ipv4 n = true ->
  exists m, validateUrl urlString = err (BadRequestError m).
Proof.
  intros Hnew Hhost Hpriv. apply (private_prefix_refused _ url Hnew).
  rewrite Hhost. cbn [URL.host_serialize]. now apply private_ipv4_text.
Qed.

Lemma private_ipv4_refused_witness :
  URL.new "http://0x7f.1/"
    = Some {| URL.protocol := "http:"; URL.hostname := "127.0.0.1" |} /\
  "127.0.0.1" = URL.host_serialize (URL.IPv4 2130706433) /\
  private_ipv4 2130706433 = true /\
  exists m, validateUrl "http://0x7f.1/" = err (BadRequestError m).
Proof.
  split; [reflexivity|]. split; [reflexivity|]. split; [reflexivity|].
  apply (private_ipv4_refused "http://0x7f.1/"
           {| URL.protocol := "http:"; URL.hostname := "127.0.0.1" |}
           2130706433); reflexivity.
Defined.

Lemma lower_fixed c : is_lower (lower c) = false -> lower c = c.
Proof.
  destruct c as [[] [] [] [] [] [] [] []]; vm_compute; intros H;
    try discriminate H; reflexivity.
Qed.

(** Only a text without lower-case letters lower-cases to itself... and
    only it lower-cases to such a text. *)
Lemma toLowerCase_fixed t : forall s,
  sforall (fun c => negb (is_lower c)) t = true ->
  toLowerCase s = t -> s = t.
Proof.
  unfold toLowerCase.
  induction t as [|d t IH]; intros [|c s] Ht; cbn; try discriminate;
    [reflexivity|].
  cbn in Ht. apply andb_true_iff in Ht. destruct Ht as [Hd Ht].
  intros [= Hc Hs]. subst d. apply negb_true_iff in Hd.
  rewrite (lower_fixed c Hd). f_equal. now apply IH.
Qed.

(** X3. For a URL with protocol http: or https: whose host name is a
    bracketed IPv6 literal, the only refusal is that of [[::1]]: every
    other such URL is returned as a success, the IPv4-mapped, unique-local
    and link-local patterns never matching a bracketed host name. *)
Theorem bracketed_host_accepted urlString url rest :
  URL.new urlString = Some url ->
  URL.protocol url = "http:" \/ URL.protocol url = "https:" ->
  URL.hostname url = String "[" rest ->
  URL.hostname url <> "[::1]" ->
  validateUrl urlString = ok url.
Proof.
  intros Hnew Hproto Hhost Hne. unfold validateUrl. rewrite Hnew.
  assert (Hp : negb (String.eqb (URL.protocol url) "http:")
               && negb (String.eqb (URL.protocol url) "https:") = false).
  { destruct Hproto as [-> | ->]; reflexivity. }
  rewrite Hp. cbv zeta.
  assert (Hl : toLowerCase (URL.hostname url) <> "[::1]").
  { intros Hl. apply Hne. now apply toLowerCase_fixed. }
  rewrite Hhost in *. revert Hl. unfold toLowerCase. cbn [smap].
  change (lower "[") with "["%char.
  generalize (smap lower rest) as low. intros low Hl.
  change (includes BLOCKED_HOSTNAMES (String "[" low)) with false.
  cbv iota.
  change (existsb (fun pattern => test pattern (String "[" low))
            PRIVATE_IP_PATTERNS) with false.
  cbv iota.
  destruct (existsb (fun pattern => test pattern (String "[" low))
              BLOCKED_IPV6_PATTERNS) eqn:Hv6; [|reflexivity].
  exfalso. apply existsb_exists in Hv6. destruct Hv6 as (p & Hin & Ht).
  cbn in Hin.
  destruct Hin as [<- | [<- | [<- | [<- | [<- | [<- | []]]]]]];
    try (vm_compute in Ht; discriminate Ht).
  apply test_matches in Ht. destruct Ht as (r & Hrun & Hend).
  cbn [ignoreCase body to_end] in Hrun, Hend.
  apply run_chars in Hrun. rewrite (Hend eq_refl) in Hrun.
  apply Hl. exact Hrun.
Qed.

Lemma bracketed_host_accepted_witness :
  URL.new "http://[::ffff:127.0.0.1]/"
    = Some {| URL.protocol := "http:"; URL.hostname := "[::ffff:7f00:1]" |} /\
  validateUrl "http://[::ffff:127.0.0.1]/"
    = ok {| URL.protocol := "http:"; URL.hostname := "[::ffff:7f00:1]" |}.
Proof.
  split; [reflexivity|].
  apply (bracketed_host_accepted "http://[::ffff:127.0.0.1]/"
           {| URL.protocol := "http:"; URL.hostname := "[::ffff:7f00:1]" |}
           "::ffff:7f00:1]");
    [reflexivity | left; reflexivity | reflexivity | discriminate].
Defined.

End GuardMore.

Module CryptoMore.

Import JS Crypto Spec CryptoProofs.
Local Open Scope Z_scope.

Lemma timingSafeEqual_refl (a : jsstring) : timingSafeEqual a a = Some true.
Proof.
  destruct (timingSafeEqual_loop_spec a a (enough a a) (le_n _))
    as (st & Hrun & _ & Hzero).
  unfold timingSafeEqual, timingSafeEqual_fuel. rewrite Hrun. f_equal.
  apply Z.eqb_eq, Hzero. split.
  - unfold bit_xor. apply Z.lxor_nilpotent.
  - intros j _. unfold bit_xor. apply Z.lxor_nilpotent.
Qed.

(** X4. A string always compares equal to itself: no assumption on its
    code units or on its length is needed for the right secret to be
    accepted. *)
Theorem timingSafeEqual_same (a : jsstring) : timingSafeEqual a a = Some true.
Proof. apply timingSafeEqual_refl. Qed.

Lemma bit_xor_comm x y : bit_xor x y = bit_xor y x.
Proof. unfold bit_xor. apply Z.lxor_comm. Qed.

(** Swapping the two strings leaves the index and the accumulator of the
    loop as they are, step after step. *)
Lemma for_loop_swap a b maxLen fuel : forall st st',
  i st = i st' -> result st = result st' ->
  match for_loop fuel maxLen a b st, for_loop fuel maxLen b a st' with
  | Some s, Some s' => result s = result s'
  | None, None => True
  | _, _ => False
  end.
Proof.
  induction fuel as [|fuel IH]; intros st st' Hi Hr; cbn [for_loop];
    [exact I|].
  rewrite <- Hi. destruct (i st <? maxLen); [|exact Hr].
  apply IH; cbn [loop_body i result].
  - now rewrite Hi.
  - rewrite <- Hi, <- Hr. f_equal. apply bit_xor_comm.
Qed.

(** X5. The comparison does not depend on the order of its arguments. *)
Theorem timingSafeEqual_sym (a b : jsstring) :
  timingSafeEqual a b = timingSafeEqual b a.
Proof.
  unfold timingSafeEqual, timingSafeEqual_fuel, timingSafeEqual_loop.
  assert (He : enough a b = enough b a) by (unfold enough; lia).
  rewrite He, (Z.max_comm (length b) (length a)).
  pose proof (for_loop_swap a b (Z.max (length a) (length b)) (enough b a)
                {| i := 0; result := bit_xor (length a) (length b);
                   branches := [] |}
                {| i := 0; result := bit_xor (length b) (length a);
                   branches := [] |}
                eq_refl (bit_xor_comm _ _)) as Hs.
  destruct (for_loop _ _ a b _), (for_loop _ _ b a _);
    try contradiction; [|reflexivity].
  now rewrite Hs.
Qed.

(** Two different strings, of 16-bit code units and shorter than [2^32],
    compare unequal. *)
Lemma timingSafeEqual_differ (a b : jsstring) :
  wf_jsstring a -> wf_jsstring b ->
  length a < 2 ^ 32 -> length b < 2 ^ 32 ->
  a <> b -> timingSafeEqual a b = Some false.
Proof.
  intros Ha Hb La Lb Hne.
  pose proof (length_nonneg a) as Na. pose proof (length_nonneg b) as Nb.
  destruct (timingSafeEqual_loop_spec a b (enough a b) (le_n _))
    as (st & Hrun & _ & Hzero).
  unfold timingSafeEqual, timingSafeEqual_fuel. rewrite Hrun. f_equal.
  apply Z.eqb_neq. intros H0. apply Hne.
  apply Hzero in H0. destruct H0 as [Hlen Hall].
  apply (proj1 (xor_eq_0 (length a) (length b) (conj Na La) (conj Nb Lb)))
    in Hlen.
  assert (Hl : List.length a = List.length b).
  { apply Nat2Z.inj. exact Hlen. }
  apply units_agree_eq; [exact Hl|].
  intros j Hj. apply xor_eq_0.
  - apply code_unit_word, unit_at_code_unit; [assumption | lia].
  - apply code_unit_word, unit_at_code_unit; [assumption | lia].
  - apply Hall. lia.
Qed.

End CryptoMore.

Module ClientMore.

Local Close Scope Z_scope.

Import Text HttpClient HttpMethods Spec ClientSpec Samples HeadersProofs
       ClientProofs.
Local Open Scope string_scope.

Lemma set_invalid h key value :
  invalid_entry (key, value) = true -> Headers.set h key value = None.
Proof.
  unfold invalid_entry, Headers.set. cbn [fst snd].
  now destruct (Headers.valid_name key
                && Headers.valid_value (Headers.normalize value)).
Qed.

Lemma set_all_invalid entry layer : forall h,
  In entry layer -> invalid_entry entry = true ->
  Headers.set_all h layer = None.
Proof.
  induction layer as [|[key value] layer IH]; intros h Hin Hbad;
    [contradiction|].
  cbn [Headers.set_all]. destruct Hin as [<- | Hin].
  - now rewrite set_invalid.
  - destruct (Headers.set h key value); [now apply IH | reflexivity].
Qed.

Lemma fill_invalid entry init : forall h,
  In entry init -> invalid_entry entry = true ->
  Headers.fill h init = None.
Proof.
  induction init as [|[name value] init IH]; intros h Hin Hbad;
    [contradiction|].
  cbn [Headers.fill]. destruct Hin as [<- | Hin].
  - unfold invalid_entry in Hbad. cbn [fst snd] in Hbad.
    unfold Headers.append.
    now destruct (Headers.valid_name name
                  && Headers.valid_value (Headers.normalize value)).
  - destruct (Headers.append h name value); [now apply IH | reflexivity].
Qed.

Section Generic.

Context {J : Type} `{CookieJarClass J}.

Lemma request_headers_invalid (this : HttpClient J) options customHeaders
    entry :
  In entry (defaultHeaders this ++ init_layer options
            ++ custom_layer customHeaders)%list ->
  invalid_entry entry = true ->
  request_headers this options customHeaders = None.
Proof.
  intros Hin Hbad. rewrite !in_app_iff in Hin.
  unfold request_headers, bind, init_layer, custom_layer in *.
  destruct Hin as [Hin | [Hin | Hin]].
  - now rewrite (set_all_invalid entry _ [] Hin Hbad).
  - destruct (Headers.set_all [] (defaultHeaders this)); [|reflexivity].
    destruct (headers options) as [init|]; [|contradiction].
    unfold Headers.new. now rewrite (fill_invalid entry _ [] Hin Hbad).
  - destruct (Headers.set_all [] (defaultHeaders this)); [|reflexivity].
    destruct customHeaders as [custom|]; [|contradiction].
    destruct (headers options) as [init|].
    + destruct (Headers.new init); [|reflexivity].
      destruct (Headers.set_all _ (Headers.entries _)); [|reflexivity].
      now rewrite (set_all_invalid entry _ _ Hin Hbad).
    + now rewrite (set_all_invalid entry _ _ Hin Hbad).
Qed.

(** Every way [request] can run against a transport. *)
Lemma request_run_cases (this : HttpClient J) url options customHeaders fetch :
  (exists error,
     Guard.validateUrl url = err error /\
     run (request this url options customHeaders) fetch
       = (Returned (err error, this), [])) \/
  (exists parsed,
     Guard.validateUrl url = ok parsed /\
     request_headers this options customHeaders = None /\
     run (request this url options customHeaders) fetch = (Uncaught, [])) \/
  (exists parsed h r this',
     Guard.validateUrl url = ok parsed /\
     request_headers this options customHeaders = Some h /\
     run (request this url options customHeaders) fetch
       = (Returned (r, this'),
          [(url, {| fetch_method := method options;
                    fetch_headers := h;
                    fetch_body := body options |})]) /\
     defaultHeaders this' = defaultHeaders this /\
     (isErr r = true -> this' = this)).
Proof.
  destruct (Guard.validateUrl url) as [parsed | error] eqn:Hv.
  - destruct (request_headers this options customHeaders) as [h|] eqn:Hh.
    + right. right.
      pose proof (request_run this url options customHeaders parsed h fetch
                    Hv Hh) as Hrun.
      cbv zeta in Hrun.
      destruct (fetch url _) as [res | [message|]];
        do 4 eexists; (split; [reflexivity|]); (split; [reflexivity|]);
        (split; [exact Hrun|]); split; try reflexivity; try discriminate.
    + right. left. exists parsed. split; [reflexivity|]. split; [reflexivity|].
      unfold request. now rewrite Hv, Hh.
  - left. exists error. split; [reflexivity|].
    now rewrite (request_refused _ _ _ _ _ Hv).
Qed.

End Generic.

(** X6. The headers are built outside the [try]: when the guard accepts
    the URL and some default, option or custom header has a name that is
    not a token, or a value holding NUL, CR or LF, [request] throws a
    [TypeError] nobody catches instead of returning a failure, and it does
    so before any call of [fetch]. *)
Theorem request_invalid_header (J : Type) (ops : CookieJarClass J)
    (this : HttpClient J) url options customHeaders parsed entry fetch :
  Guard.validateUrl url = ok parsed ->
  In entry (defaultHeaders this ++ init_layer options
            ++ custom_layer customHeaders)%list ->
  invalid_entry entry = true ->
  run (request this url options customHeaders) fetch = (Uncaught, []).
Proof.
  intros Hv Hin Hbad. unfold request.
  now rewrite Hv, (request_headers_invalid this _ _ entry Hin Hbad).
Qed.

Lemma request_invalid_header_witness :
  run (request fresh_client "https://example.com/path" no_options
         (Some [("X Token", "1")])) answering
  = (Uncaught, []).
Proof.
  apply (request_invalid_header CookieJar.CookieJar _ fresh_client
           "https://example.com/path" no_options (Some [("X Token", "1")])
           {| URL.protocol := "https:"; URL.hostname := "example.com" |}
           ("X Token", "1") answering).
  - reflexivity.
  - left. reflexivity.
  - reflexivity.
Defined.

(** X7. [request] calls [fetch] at most once, and then with the URL string,
    the method and the body it was given, unchanged; when it throws it has
    not called [fetch]. *)
Theorem request_single_call (J : Type) (ops : CookieJarClass J)
    (this : HttpClient J) url options customHeaders fetch :
  run (request this url options customHeaders) fetch = (Uncaught, []) \/
  exists r this',
    run (request this url options customHeaders) fetch
      = (Returned (r, this'), []) \/
    exists h,
      run (request this url options customHeaders) fetch
        = (Returned (r, this'),
           [(url, {| fetch_method := method options;
                     fetch_headers := h;
                     fetch_body := body options |})]).
Proof.
  destruct (request_run_cases this url options customHeaders fetch)
    as [(error & _ & ->) | [(parsed & _ & _ & ->)
                           | (parsed & h & r & this' & _ & _ & -> & _)]].
  - right. exists (err error), this. now left.
  - now left.
  - right. exists r, this'. right. now exists h.
Qed.




Lemma count_app c a b : count c (a ++ b) = (count c a + count c b)%nat.
Proof. induction a as [|d a IH]; cbn; [reflexivity|]. rewrite IH. lia. Qed.

Lemma sforall_app p a b :
  sforall p (a ++ b) = sforall p a && sforall p b.
Proof.
  induction a as [|d a IH]; cbn; [reflexivity|].
  now rewrite IH, andb_assoc.
Qed.

Lemma hex_upper_safe n : (n < 16)%nat -> form_safe (URL.hex_upper n) = true.
Proof.
  intros Hn. do 16 (destruct n as [|n]; [reflexivity|]). lia.
Qed.

(** A serialized byte is made of safe bytes, [+] and [%]. *)
Lemma form_byte_chars c :
  sforall (fun d => form_safe d || one_of "+%" d) (form_byte c) = true.
Proof.
  unfold form_byte. destruct (form_safe c) eqn:Hs.
  - cbn. now rewrite Hs.
  - destruct (Ascii.eqb c " "); [reflexivity|].
    cbn [sforall]. rewrite !hex_upper_safe; [reflexivity | |].
    + apply Nat.mod_upper_bound. discriminate.
    + apply Nat.Div0.div_lt_upper_bound.
      unfold code. pose proof (nat_ascii_bounded c). lia.
Qed.

Lemma form_encode_chars s :
  sforall (fun d => form_safe d || one_of "+%" d) (form_encode s) = true.
Proof.
  induction s as [|c s IH]; [reflexivity|]. cbn [form_encode].
  now rewrite sforall_app, form_byte_chars, IH.
Qed.

Lemma count_absent p c s :
  sforall p s = true -> p c = false -> count c s = 0%nat.
Proof.
  intros Hs Hc. induction s as [|d s IH]; [reflexivity|].
  cbn in *. apply andb_true_iff in Hs. destruct Hs as [Hd Hs].
  destruct (Ascii.eqb_spec c d) as [-> | _]; [congruence|]. now apply IH.
Qed.

Lemma sforall_weaken (p q : ascii -> bool) s :
  (forall c, p c = true -> q c = true) ->
  sforall p s = true -> sforall q s = true.
Proof.
  intros Hpq. induction s as [|c s IH]; [reflexivity|]. cbn.
  rewrite !andb_true_iff. intros [Hc Hs]. split; [now apply Hpq | now apply IH].
Qed.

Lemma form_pair_counts name value :
  count "=" (form_encode name ++ "=" ++ form_encode value) = 1%nat /\
  count "&" (form_encode name ++ "=" ++ form_encode value) = 0%nat.
Proof.
  rewrite !count_app.
  rewrite !(count_absent _ "=" _ (form_encode_chars _) eq_refl).
  rewrite !(count_absent _ "&" _ (form_encode_chars _) eq_refl).
  split; reflexivity.
Qed.

Lemma form_encode_body_chars s :
  sforall (fun c => form_safe c || one_of "+%&=" c) (form_encode s) = true.
Proof.
  apply (sforall_weaken (fun d => form_safe d || one_of "+%" d));
    [|apply form_encode_chars].
  intros c Hc. apply orb_true_iff in Hc. destruct Hc as [-> | Hc];
    [reflexivity|].
  apply orb_true_iff. right. unfold one_of in *. cbn in *.
  destruct (Ascii.eqb c "+"); [reflexivity|].
  destruct (Ascii.eqb c "%"); [reflexivity|]. discriminate.
Qed.

Lemma form_pair_chars name value :
  sforall (fun c => form_safe c || one_of "+%&=" c)
    (form_encode name ++ "=" ++ form_encode value) = true.
Proof.
  now rewrite !sforall_app, !form_encode_body_chars.
Qed.

Lemma concat_cons sep x y l :
  String.concat sep (x :: y :: l) = x ++ sep ++ String.concat sep (y :: l).
Proof. reflexivity. Qed.

(** X9. The body [submitForm] serializes holds one [=] per field and one
    [&] between two fields, and apart from these separators only letters,
    digits, [*], [-], [.], [_], [+] and [%]: no name or value of the form
    can add a field or end one early. *)
Theorem form_body_separators (formData : Headers.Entries) :
  count "=" (URLSearchParams_toString formData) = List.length formData /\
  count "&" (URLSearchParams_toString formData)
    = pred (List.length formData) /\
  sforall (fun c => form_safe c || one_of "+%&=" c)
    (URLSearchParams_toString formData) = true.
Proof.
  unfold URLSearchParams_toString, join.
  induction formData as [|[name value] formData IH]; [repeat split|].
  cbn [map List.length pred]. destruct formData as [|next formData].
  - cbn [map String.concat List.length].
    destruct (form_pair_counts name value) as [He Ha].
    rewrite He, Ha, form_pair_chars. repeat split.
  - destruct IH as (IHe & IHa & IHc).
    destruct (form_pair_counts name value) as [He Ha].
    cbn [map] in *. rewrite concat_cons.
    rewrite !(count_app _ (form_encode name ++ "=" ++ form_encode value)),
      He, Ha.
    rewrite !(count_app _ "&"), IHe, IHa. cbn [count List.length pred].
    split; [reflexivity|]. split; [reflexivity|].
    now rewrite (sforall_app _ (form_encode name ++ "=" ++ form_encode value)),
      (sforall_app _ "&"), IHc, form_pair_chars.
Qed.






End ClientMore.

Module BotProofs.

Import JS JSString TelegramService BotHandlers Routes BotSpec BotSamples.
Local Open Scope string_scope.
Local Open Scope list_scope.
Local Open Scope Z_scope.

Lemma replace_all_app c r a b :
  replace_all c r (a ++ b) = replace_all c r a ++ replace_all c r b.
Proof. unfold replace_all. apply flat_map_app. Qed.

Lemma escapeHtml_cons u text :
  escapeHtml (u :: text) = escape_unit u ++ escapeHtml text.
Proof.
  unfold escapeHtml, escape_unit.
  change (u :: text) with ([u] ++ text).
  rewrite !replace_all_app. f_equal.
  unfold replace_all at 3. cbn [flat_map]. rewrite app_nil_r.
  destruct (Z.eqb_spec u 38) as [-> | H38]; [reflexivity|].
  unfold replace_all at 2. cbn [flat_map]. rewrite app_nil_r.
  destruct (Z.eqb_spec u 60) as [-> | H60]; [reflexivity|].
  unfold replace_all. cbn [flat_map]. rewrite app_nil_r.
  destruct (Z.eqb_spec u 62) as [-> | H62]; reflexivity.
Qed.

Lemma escapeHtml_flat text : escapeHtml text = flat_map escape_unit text.
Proof.
  induction text as [|u text IH]; [reflexivity|].
  rewrite escapeHtml_cons. cbn [flat_map]. now rewrite IH.
Qed.

(** The escaped form holds no [<] and no [>]. *)
Lemma escapeHtml_clean text :
  occurrences 60 (escapeHtml text) = 0%nat /\
  occurrences 62 (escapeHtml text) = 0%nat.
Proof.
  induction text as [|u text (I60 & I62)]; [split; reflexivity|].
  rewrite escapeHtml_cons. unfold occurrences in *.
  rewrite !count_occ_app, I60, I62. unfold escape_unit.
  destruct (Z.eqb_spec u 38); [split; reflexivity|].
  destruct (Z.eqb_spec u 60); [split; reflexivity|].
  destruct (Z.eqb_spec u 62); [split; reflexivity|].
  cbn [count_occ]. destruct (Z.eq_dec u 60); [contradiction|].
  destruct (Z.eq_dec u 62); [contradiction|]. split; reflexivity.
Qed.

(** X11. The three replacements of [escapeHtml], one after the other,
    amount to one pass that writes [&amp;] for [&], [&lt;] for [<],
    [&gt;] for [>] and keeps every other code unit: the ampersands the
    later replacements bring in are not escaped again.  The result holds
    no [<] and no [>]. *)
Theorem escapeHtml_single_pass (text : jsstring) :
  escapeHtml text = flat_map escape_unit text /\
  occurrences 60 (escapeHtml text) = 0%nat /\
  occurrences 62 (escapeHtml text) = 0%nat.
Proof.
  split; [apply escapeHtml_flat | apply escapeHtml_clean].
Qed.

Lemma escape_unit_head u :
  exists tail, escape_unit u = (if (u =? 60) || (u =? 62) then 38 else u) :: tail.
Proof.
  unfold escape_unit.
  destruct (Z.eqb_spec u 38) as [-> | ?]; [eexists; reflexivity|].
  destruct (Z.eqb_spec u 60) as [-> | ?]; [eexists; reflexivity|].
  destruct (Z.eqb_spec u 62) as [-> | ?]; eexists; reflexivity.
Qed.

(** X12. [escapeHtml] loses nothing: two texts with the same escaped form
    are the same text. *)
Theorem escapeHtml_injective (a b : jsstring) :
  escapeHtml a = escapeHtml b -> a = b.
Proof.
  revert b. induction a as [|x a IH]; intros [|y b].
  - reflexivity.
  - rewrite escapeHtml_cons. destruct (escape_unit_head y) as [t ->].
    discriminate.
  - rewrite escapeHtml_cons. destruct (escape_unit_head x) as [t ->].
    discriminate.
  - rewrite !escapeHtml_cons. unfold escape_unit.
    destruct (Z.eqb_spec x 38) as [-> | X38];
      [|destruct (Z.eqb_spec x 60) as [-> | X60];
        [|destruct (Z.eqb_spec x 62) as [-> | X62]]];
      (destruct (Z.eqb_spec y 38) as [-> | Y38];
       [|destruct (Z.eqb_spec y 60) as [-> | Y60];
         [|destruct (Z.eqb_spec y 62) as [-> | Y62]]]);
      cbn [lit app nat_of_ascii Z.of_nat]; intros Heq;
      try (injection Heq as Heq; f_equal; now apply IH);
      try discriminate Heq;
      try (injection Heq; intros; subst; contradiction);
      try (injection Heq; intros; congruence).
  injection Heq as -> Heq. f_equal. now apply IH.
Qed.

Lemma escapeHtml_injective_witness :
  escapeHtml (lit "a<b") = escapeHtml (lit "a<b") /\ lit "a<b" = lit "a<b".
Proof.
  split; [reflexivity|].
  apply (escapeHtml_injective (lit "a<b") (lit "a<b")). reflexivity.
Defined.


Ltac count_pieces c :=
  unfold occurrences; cbn [List.concat]; rewrite ?count_occ_app;
  change (count_occ Z.eq_dec [] c) with 0%nat; lia.

Lemma welcome_count c q :
  occurrences c (welcome_text q)
  = (occurrences c (welcome_text []) + occurrences c q)%nat.
Proof. unfold welcome_text. count_pieces c. Qed.

Lemma premiumDetails_count c q :
  occurrences c (premiumDetails_text q)
  = (occurrences c (premiumDetails_text []) + occurrences c q)%nat.
Proof. unfold premiumDetails_text. count_pieces c. Qed.

Lemma help_count c q :
  occurrences c (help_text q)
  = (occurrences c (help_text []) + occurrences c q)%nat.
Proof. unfold help_text. count_pieces c. Qed.

(** X13. The configuration cannot add markup to a message: the price and
    the support contact are escaped wherever a message quotes them, so
    each of the seven messages has the same number of [<] and of [>]
    whatever the configuration. *)
Theorem messages_markup_fixed (trialExpiry : jsstring)
    (config config' : BotConfig) :
  markup (getMessages trialExpiry config)
  = markup (getMessages trialExpiry config').
Proof.
  unfold markup, message_list, getMessages.
  cbn [map welcome trialDetails premiumDetails trialActivated status help
       noFingerprint].
  destruct (escapeHtml_clean (premiumPrice config)) as [P60 P62].
  destruct (escapeHtml_clean (premiumPrice config')) as [P60' P62'].
  destruct (escapeHtml_clean (supportContact config)) as [S60 S62].
  destruct (escapeHtml_clean (supportContact config')) as [S60' S62'].
  rewrite (welcome_count 60 (escapeHtml (premiumPrice config))),
    (welcome_count 62 (escapeHtml (premiumPrice config))),
    (welcome_count 60 (escapeHtml (premiumPrice config'))),
    (welcome_count 62 (escapeHtml (premiumPrice config'))),
    (premiumDetails_count 60 (escapeHtml (premiumPrice config))),
    (premiumDetails_count 62 (escapeHtml (premiumPrice config))),
    (premiumDetails_count 60 (escapeHtml (premiumPrice config'))),
    (premiumDetails_count 62 (escapeHtml (premiumPrice config'))),
    (help_count 60 (escapeHtml (supportContact config))),
    (help_count 62 (escapeHtml (supportContact config))),
    (help_count 60 (escapeHtml (supportContact config'))),
    (help_count 62 (escapeHtml (supportContact config'))).
  rewrite P60, P62, P60', P62', S60, S62, S60', S62'.
  reflexivity.
Qed.


(** *** The service *)

(** One call of the Bot API: the call made and the result, by what the
    transport does with it. *)
Lemma callTelegramApi_run token method params fetch :
  run (callTelegramApi token method params) fetch =
  (match fetch (api_call token method params) with
   | HttpClient.Fulfilled response =>
       if response_ok response then ok true
       else err (AppErrors.InternalServerError
                   ("Telegram API error: "
                    ++ Number_toString (HttpClient.status response))%string)
   | HttpClient.Rejected _ =>
       err (AppErrors.InternalServerError
              ("Failed to call Telegram API: " ++ method)%string)
   end,
   [api_call token method params]).
Proof.
  unfold callTelegramApi. cbn [run]. fold (api_call token method params).
  destruct (fetch (api_call token method params)) as [response | error];
    [|reflexivity].
  now destruct (response_ok response).
Qed.

Lemma run_bind {A B : Type} (p : Script A) (f : A -> Script B) fetch :
  run (bind p f) fetch =
  (fst (run (f (fst (run p fetch))) fetch),
   snd (run p fetch) ++ snd (run (f (fst (run p fetch))) fetch)).
Proof.
  induction p as [a | call k IH]; cbn [bind run fst snd app].
  - now destruct (run (f a) fetch).
  - rewrite IH. now destruct (run (k (fetch call)) fetch).
Qed.

(** X14. A call of the Bot API never throws and makes exactly one [fetch]:
    a POST of the JSON parameters to the base URL followed by the token, a
    slash and the method.  It returns [ok(true)] exactly for a response
    with a status from 200 to 299; for another status the error names the
    status, and when [fetch] throws it names the method: the token and the
    parameters are in neither message. *)
Theorem callTelegramApi_outcome token method params fetch :
  snd (run (callTelegramApi token method params) fetch)
    = [api_call token method params] /\
  ((exists response,
      fetch (api_call token method params) = HttpClient.Fulfilled response /\
      200 <= HttpClient.status response <= 299 /\
      fst (run (callTelegramApi token method params) fetch) = ok true) \/
   (exists response,
      fetch (api_call token method params) = HttpClient.Fulfilled response /\
      (HttpClient.status response < 200 \/ 299 < HttpClient.status response) /\
      fst (run (callTelegramApi token method params) fetch)
        = err (AppErrors.InternalServerError
                 ("Telegram API error: "
                  ++ Number_toString (HttpClient.status response))%string)) \/
   (exists error,
      fetch (api_call token method params) = HttpClient.Rejected error /\
      fst (run (callTelegramApi token method params) fetch)
        = err (AppErrors.InternalServerError
                 ("Failed to call Telegram API: " ++ method)%string))).
Proof.
  rewrite callTelegramApi_run. split; [reflexivity|]. cbn [fst].
  destruct (fetch (api_call token method params)) as [response | error].
  - unfold response_ok.
    destruct (Z.leb_spec 200 (HttpClient.status response));
      destruct (Z.leb_spec (HttpClient.status response) 299); cbn [andb];
      [left | right; left | right; left | right; left];
      exists response; (split; [reflexivity|]); split;
      try reflexivity; lia.
  - right. right. exists error. split; reflexivity.
Qed.


(** *** The handlers *)

Lemma sendMessage_run token chatId text keyboard fetch :
  snd (run (sendMessage token chatId text (Some keyboard)) fetch)
  = [api_call token "sendMessage"
       (JObject [("chat_id", JNumber chatId);
                 ("text", JString text);
                 ("parse_mode", JString (lit "HTML"));
                 ("reply_markup", keyboard)])].
Proof. unfold sendMessage. now rewrite callTelegramApi_run. Qed.

(** Every message is answered by one of four replies. *)
Lemma handleMessage_reply toLowerCase trialExpiry message config :
  exists text keyboard,
    In (text, keyboard) (replies trialExpiry config) /\
    handleMessage toLowerCase trialExpiry message config
    = sendMessage (botToken config)
        (TelegramChat.id (TelegramMessage.chat message)) text (Some keyboard).
Proof.
  unfold handleMessage, replies. cbv zeta.
  repeat match goal with
         | |- context [if ?b then _ else _] => destruct b
         end;
    do 2 eexists; (split; [|reflexivity]); cbn [In]; auto 6.
Qed.

(** X15. Every text message gets exactly one reply: one [sendMessage], to
    the chat the message came from, in HTML mode, with one of four texts
    and its keyboard; what the message says only chooses among the
    four. *)
Theorem handleMessage_one_reply toLowerCase trialExpiry message config :
  exists text keyboard,
    In (text, keyboard) (replies trialExpiry config) /\
    forall fetch,
      snd (run (handleMessage toLowerCase trialExpiry message config) fetch)
      = [send_call config (TelegramChat.id (TelegramMessage.chat message))
           text keyboard].
Proof.
  destruct (handleMessage_reply toLowerCase trialExpiry message config)
    as (text & keyboard & Hin & ->).
  exists text, keyboard. split; [exact Hin|]. intros fetch.
  apply sendMessage_run.
Qed.

Lemma editMessage_run token chatId messageId text keyboard fetch :
  run (editMessage token chatId messageId text (Some keyboard)) fetch
  = run (callTelegramApi token "editMessageText"
           (JObject [("chat_id", JNumber chatId);
                     ("message_id", JNumber messageId);
                     ("text", JString text);
                     ("parse_mode", JString (lit "HTML"));
                     ("reply_markup", keyboard)])) fetch.
Proof. reflexivity. Qed.

(** What [handleCallbackQuery] does once the query is acknowledged; the
    outcome of the acknowledgement plays no part in it. *)
Lemma handleCallbackQuery_run trialExpiry query config :
  exists after : Script ApiResult,
    (forall fetch,
       run (handleCallbackQuery trialExpiry query config) fetch
       = (fst (run after fetch),
          answer_call query config :: snd (run after fetch))) /\
    ((lacks_context query = true /\
      after = Done (err (AppErrors.InternalServerError
                           "Missing callback message context"))) \/
     (lacks_context query = false /\ after = Done (ok true)) \/
     (lacks_context query = false /\
      exists m text keyboard,
        TelegramCallbackQuery.message query = Some m /\
        In (text, keyboard) (edits trialExpiry config) /\
        after = editMessage (botToken config)
                  (TelegramChat.id (TelegramMessage.chat m))
                  (TelegramMessage.message_id m) text (Some keyboard))).
Proof.
  unfold handleCallbackQuery, lacks_context, edits. cbv zeta.
  assert (Hans : forall (k : ApiResult -> Script ApiResult) after fetch,
            (forall r, k r = after) ->
            run (bind (answerCallback (botToken config)
                         (TelegramCallbackQuery.id query) None None) k) fetch
            = (fst (run after fetch),
               answer_call query config :: snd (run after fetch))).
  { intros k after fetch Hk. rewrite run_bind, Hk.
    unfold answerCallback. now rewrite callTelegramApi_run. }
  destruct (TelegramCallbackQuery.message query) as [m|]; cbn [option_map].
  - destruct ((TelegramChat.id (TelegramMessage.chat m) =? 0)
              || (TelegramMessage.message_id m =? 0)) eqn:Hzero.
    + eexists. split; [intros fetch; apply Hans; intros r; reflexivity|].
      left. split; reflexivity.
    + repeat match goal with
             | |- context [if ?b then _ else _] => destruct b
             end;
        (eexists; split;
         [intros fetch; apply Hans; intros r; reflexivity|]);
        try (right; left; split; reflexivity);
        right; right; (split; [reflexivity|]);
        exists m; do 2 eexists; (split; [reflexivity|]);
        (split; [|reflexivity]); cbn [In]; auto 7.
  - eexists. split; [intros fetch; apply Hans; intros r; reflexivity|].
    left. split; reflexivity.
Qed.

Lemma method_urls_differ token params params' :
  api_url (api_call token "editMessageText" params)
  <> api_url (api_call token "answerCallbackQuery" params').
Proof.
  unfold api_call. cbn [api_url]. intros Heq.
  apply app_inv_head in Heq. apply app_inv_head in Heq. discriminate Heq.
Qed.

(** X16. A callback query is always acknowledged first, with its own
    identifier, and at most one edit follows.  Whether the acknowledgement
    succeeds changes nothing: two transports that differ only on the
    acknowledgement give the same result and the same calls. *)
Theorem callback_acknowledged_first trialExpiry query config
    fetch :
  (exists rest,
     snd (run (handleCallbackQuery trialExpiry query config) fetch)
       = answer_call query config :: rest /\
     (List.length rest <= 1)%nat) /\
  (forall fetch',
     (forall call,
        api_url call <> api_url (answer_call query config) ->
        fetch' call = fetch call) ->
     run (handleCallbackQuery trialExpiry query config) fetch'
     = run (handleCallbackQuery trialExpiry query config) fetch).
Proof.
  destruct (handleCallbackQuery_run trialExpiry query config)
    as (after & Hrun & Hafter).
  split.
  - exists (snd (run after fetch)). rewrite Hrun. split; [reflexivity|].
    destruct Hafter as [[_ ->] | [[_ ->] | (_ & m & text & kb & _ & _ & ->)]];
      cbn [run snd List.length]; try lia.
    rewrite editMessage_run, callTelegramApi_run. cbn. lia.
  - intros fetch' Hsame. rewrite !Hrun.
    destruct Hafter as [[_ ->] | [[_ ->] | (_ & m & text & kb & _ & _ & ->)]];
      try reflexivity.
    rewrite !editMessage_run, !callTelegramApi_run.
    rewrite Hsame; [reflexivity|]. apply method_urls_differ.
Qed.

(** X17. [handleCallbackQuery] answers "Missing callback message context"
    exactly for a query without a message or whose chat or message
    identifier is zero (a zero identifier is falsy); no other failure of
    the handler carries this message. *)
Theorem missing_context_exact trialExpiry query config fetch :
  fst (run (handleCallbackQuery trialExpiry query config) fetch)
    = err (AppErrors.InternalServerError "Missing callback message context")
  <-> lacks_context query = true.
Proof.
  destruct (handleCallbackQuery_run trialExpiry query config)
    as (after & Hrun & Hafter).
  rewrite Hrun. cbn [fst].
  destruct Hafter as [[Hl ->] | [[Hl ->] | (Hl & m & text & kb & _ & _ & ->)]];
    rewrite Hl; cbn [run fst].
  - split; reflexivity.
  - split; discriminate.
  - rewrite editMessage_run, callTelegramApi_run. cbn [fst].
    split; [|discriminate].
    destruct (fetch _) as [response | error];
      [destruct (response_ok response)|]; intros Heq; discriminate Heq.
Qed.

(** X18. Whatever the update, [processUpdate] makes at most two calls of
    [fetch], each a POST of JSON to the URL of one of three methods of the
    Bot API (sendMessage, editMessageText, answerCallbackQuery) under the
    configured token. *)
Theorem processUpdate_calls toLowerCase trialExpiry update config fetch :
  (List.length
     (snd (run (processUpdate toLowerCase trialExpiry update config) fetch))
   <= 2)%nat /\
  Forall (fun call =>
            exists method params,
              In method ["sendMessage"; "editMessageText";
                         "answerCallbackQuery"]%string /\
              call = api_call (botToken config) method params)
    (snd (run (processUpdate toLowerCase trialExpiry update config) fetch)).
Proof.
  unfold processUpdate.
  destruct (TelegramUpdate.callback_query update) as [query|].
  - destruct (handleCallbackQuery_run trialExpiry query config)
      as (after & Hrun & Hafter).
    rewrite Hrun. cbn [snd].
    assert (Hans : exists method params,
              In method ["sendMessage"; "editMessageText";
                         "answerCallbackQuery"]%string /\
              answer_call query config
              = api_call (botToken config) method params).
    { do 2 eexists. split; [|reflexivity]. cbn. auto. }
    destruct Hafter as [[_ ->] | [[_ ->] | (_ & m & text & kb & _ & _ & ->)]];
      cbn [run snd List.length].
    + split; [lia | repeat constructor; exact Hans].
    + split; [lia | repeat constructor; exact Hans].
    + rewrite editMessage_run, callTelegramApi_run. cbn [snd List.length].
      split; [lia|]. repeat constructor; [exact Hans|].
      do 2 eexists. split; [|reflexivity]. cbn. auto.
  - cbv zeta.
    assert (Hmsg : forall m,
              (List.length
                 (snd (run (handleMessage toLowerCase trialExpiry m config)
                         fetch)) <= 2)%nat /\
              Forall (fun call =>
                        exists method params,
                          In method ["sendMessage"; "editMessageText";
                                     "answerCallbackQuery"]%string /\
                          call = api_call (botToken config) method params)
                (snd (run (handleMessage toLowerCase trialExpiry m config)
                        fetch))).
    { intros m.
      destruct (handleMessage_reply toLowerCase trialExpiry m config)
        as (text & kb & _ & ->).
      rewrite sendMessage_run. cbn [List.length]. split; [lia|].
      repeat constructor. do 2 eexists. split; [|reflexivity]. cbn. auto. }
    destruct (TelegramUpdate.message update) as [m|];
      [|destruct (TelegramUpdate.edited_message update) as [m|]];
      try (destruct (TelegramMessage.text m) as [t|];
           [destruct (truthy t)|]);
      try apply Hmsg; cbn [run snd List.length]; split; try lia; constructor.
Qed.


Lemma eqb_eq a : forall b, eqb a b = true <-> a = b.
Proof.
  induction a as [|x a IH]; intros [|y b]; cbn; try (split; congruence).
  rewrite andb_true_iff, Z.eqb_eq, IH. split; [intros [-> ->] | intros [= -> ->]];
    auto.
Qed.

Lemma callback_acknowledged_first_witness :
  (forall call,
     api_url call <> api_url (answer_call query config) ->
     failing_answers call = accepting call) /\
  run (handleCallbackQuery expiry query config) failing_answers
  = run (handleCallbackQuery expiry query config) accepting.
Proof.
  assert (Hsame : forall call,
            api_url call <> api_url (answer_call query config) ->
            failing_answers call = accepting call).
  { intros call Hne. unfold failing_answers.
    destruct (eqb (api_url call) (api_url (answer_call query config))) eqn:He;
      [|reflexivity].
    apply eqb_eq in He. contradiction. }
  split; [exact Hsame|].
  apply (proj2 (callback_acknowledged_first expiry query config accepting)
           failing_answers Hsame).
Defined.

Lemma missing_context_exact_witness :
  lacks_context orphan_query = true /\
  fst (run (handleCallbackQuery expiry orphan_query config) accepting)
  = err (AppErrors.InternalServerError "Missing callback message context").
Proof.
  split; [reflexivity|].
  apply (proj2 (missing_context_exact expiry orphan_query config accepting)).
  reflexivity.
Defined.

(** *** The webhook route *)

Lemma webhook_size toLowerCase trialExpiry env req :
  too_large req = true ->
  webhook toLowerCase trialExpiry env req
  = Some (Done (err (AppErrors.BadRequestError "Request body too large"))).
Proof.
  unfold too_large, webhook. cbv zeta. now intros ->.
Qed.

(** X19. A request whose secret token (the empty string when the header is
    absent) differs from the configured secret is never processed: the
    route answers at once, without reading the body and without any call
    of the Bot API, "Invalid webhook secret", or "Request body too large"
    when the declared length exceeds the limit, this check coming first.
    The strings are sequences of 16-bit code units shorter than [2^32]. *)
Theorem webhook_wrong_secret toLowerCase trialExpiry env req :
  wf_jsstring (presented_secret req) ->
  wf_jsstring (TELEGRAM_WEBHOOK_SECRET env) ->
  JS.length (presented_secret req) < 2 ^ 32 ->
  JS.length (TELEGRAM_WEBHOOK_SECRET env) < 2 ^ 32 ->
  presented_secret req <> TELEGRAM_WEBHOOK_SECRET env ->
  webhook toLowerCase trialExpiry env req
  = Some (Done (err (if too_large req
                     then AppErrors.BadRequestError "Request body too large"
                     else AppErrors.UnauthorizedError
                            "Invalid webhook secret"))).
Proof.
  intros Hs He Ls Le Hne.
  destruct (too_large req) eqn:Hbig; [now apply webhook_size|].
  unfold too_large in Hbig. unfold webhook. cbv zeta. rewrite Hbig.
  fold (presented_secret req).
  now rewrite (CryptoMore.timingSafeEqual_differ _ _ Hs He Ls Le Hne).
Qed.

Lemma webhook_wrong_secret_witness :
  webhook ascii_toLowerCase expiry env (request "guess")
  = Some (Done (err (AppErrors.UnauthorizedError "Invalid webhook secret"))).
Proof.
  apply (webhook_wrong_secret ascii_toLowerCase expiry env (request "guess")).
  - apply CryptoProofs.lit_wf.
  - apply CryptoProofs.lit_wf.
  - reflexivity.
  - reflexivity.
  - discriminate.
Defined.

(** X20. A request that declares no excessive length, presents the
    configured secret and carries a valid update is handed to
    [processUpdate] with the configuration read from the environment,
    provided the five variables are set and not empty; when one of them is
    missing the route answers "Server configuration error" and makes no
    call.  No assumption on the secret is needed for it to be accepted. *)
Theorem webhook_accepted toLowerCase trialExpiry env req data :
  too_large req = false ->
  presented_secret req = TELEGRAM_WEBHOOK_SECRET env ->
  payload req = ValidUpdate data ->
  webhook toLowerCase trialExpiry env req
  = Some
      match set_value (TELEGRAM_BOT_TOKEN env),
            set_value (APP_DOWNLOAD_URL env),
            set_value (PAYMENT_URL env),
            set_value (SUPPORT_CONTACT env),
            set_value (PREMIUM_PRICE env) with
      | Some token, Some download, Some payment, Some support, Some price =>
          processUpdate toLowerCase trialExpiry data
            {| botToken := token;
               appDownloadUrl := download;
               paymentUrl := payment;
               supportContact := support;
               premiumPrice := price |}
      | _, _, _, _, _ =>
          Done (err (AppErrors.InternalServerError
                       "Server configuration error"))
      end.
Proof.
  intros Hbig Hsecret Hpayload.
  unfold too_large in Hbig. unfold webhook. cbv zeta. rewrite Hbig.
  fold (presented_secret req).
  rewrite Hsecret, CryptoMore.timingSafeEqual_refl, Hpayload.
  destruct (set_value (TELEGRAM_BOT_TOKEN env));
    destruct (set_value (APP_DOWNLOAD_URL env));
    destruct (set_value (PAYMENT_URL env));
    destruct (set_value (SUPPORT_CONTACT env));
    destruct (set_value (PREMIUM_PRICE env)); reflexivity.
Qed.

Lemma webhook_accepted_witness :
  webhook ascii_toLowerCase expiry env (request "s3cret")
  = Some (processUpdate ascii_toLowerCase expiry update config).
Proof.
  apply (webhook_accepted ascii_toLowerCase expiry env (request "s3cret")
           update); reflexivity.
Defined.

End BotProofs.
